(** * CRUD route generation (crud/app.py): a shallow embedding

    The development follows [src/crud/app.py]: the path helpers, the
    identifier coercion, the seven request handlers built by
    [CRUDApiRouter.__init__], and the registry [CRUDApi] with
    [register_router], [include_router] and [publish].

    Conventions of the embedding.
    - A Python [str] is a [string] whose characters stand for the code
      points U+0000..U+00FF.
    - A raised exception is a value of [PyException]; these stand for
      instances of Python's [Exception] class, which is what the
      handlers' [except Exception] clauses catch.
    - The data store (pyrepositories) and the record factory are external
      collaborators: a handler is written against the interface
      [DataSource], whose operations thread a store state and may raise.
    - FastAPI's [APIRouter] is a registration table: a route records its
      verb, its path (router prefix followed by the decorator's path),
      its tags and the handler it is bound to. *)

From Stdlib Require Import ZArith Ascii String List Bool Lia.
From stdpp Require Import base option list strings.

Local Open Scope Z_scope.

(** ** Python values *)

#[warnings="-register-all"]
Inductive PyVal : Type :=
| PNone
| PBool (b : bool)
| PInt (n : Z)
| PStr (s : string)
| PList (items : list PyVal)
| PDict (entries : list (string * PyVal)).

(** Truth value of an object, as tested by [if result:]. *)
Definition truthy (v : PyVal) : bool :=
  match v with
  | PNone => false
  | PBool b => b
  | PInt n => negb (n =? 0)
  | PStr s => negb (String.eqb s "")
  | PList items => match items with [] => false | _ => true end
  | PDict entries => match entries with [] => false | _ => true end
  end.

(** Structural equality of values, used for [==] on filter values. *)
Fixpoint pyval_eqb (a b : PyVal) {struct a} : bool :=
  match a, b with
  | PNone, PNone => true
  | PBool x, PBool y => Bool.eqb x y
  | PInt x, PInt y => x =? y
  | PStr x, PStr y => String.eqb x y
  | PList xs, PList ys =>
      (fix all2 (l1 l2 : list PyVal) {struct l1} : bool :=
         match l1, l2 with
         | [], [] => true
         | x :: r1, y :: r2 => pyval_eqb x y && all2 r1 r2
         | _, _ => false
         end) xs ys
  | PDict xs, PDict ys =>
      (fix all2 (l1 l2 : list (string * PyVal)) {struct l1} : bool :=
         match l1, l2 with
         | [], [] => true
         | (k1, x) :: r1, (k2, y) :: r2 =>
             String.eqb k1 k2 && pyval_eqb x y && all2 r1 r2
         | _, _ => false
         end) xs ys
  | _, _ => false
  end.

(** The path parameter of the single-item routes is typed [int | str]. *)
Inductive Identifier : Type :=
| IdInt (n : Z)
| IdStr (s : string).

Definition id_value (i : Identifier) : PyVal :=
  match i with
  | IdInt n => PInt n
  | IdStr s => PStr s
  end.

(** ** Exceptions and results *)

Inductive PyException : Type :=
| Exception (cls : string) (msg : string).

(** [str(e)] for an exception carrying one message argument. *)
Definition str (e : PyException) : string :=
  match e with Exception _ msg => msg end.

Definition ValueError (msg : string) : PyException :=
  Exception "ValueError" msg.

Inductive Outcome (A : Type) : Type :=
| Return (a : A)
| Raise (e : PyException).
Arguments Return {A} a.
Arguments Raise {A} e.

(** ** Strings: [str.lower] and [int(str)] *)

Definition code (c : ascii) : N := N_of_ascii c.

(** [str.lower] on U+0000..U+00FF: A-Z, and the Latin-1 capitals
    U+00C0..U+00DE without the multiplication sign U+00D7. *)
Definition lower_char (c : ascii) : ascii :=
  let n := code c in
  if ((65 <=? n) && (n <=? 90)
      || (192 <=? n) && (n <=? 222) && negb (n =? 215))%N
  then ascii_of_N (n + 32)
  else c.

Fixpoint lower (s : string) : string :=
  match s with
  | EmptyString => EmptyString
  | String c r => String (lower_char c) (lower r)
  end.

(** White space skipped by [int] around the number: the C locale's
    space characters, and the two Latin-1 code points that
    [str.isspace] accepts (U+0085, U+00A0). *)
Definition is_space (c : ascii) : bool :=
  let n := code c in
  ((9 <=? n) && (n <=? 13) || (n =? 32) || (n =? 133) || (n =? 160))%N.

Definition digit_value (c : ascii) : option Z :=
  let n := code c in
  if ((48 <=? n) && (n <=? 57))%N then Some (Z.of_N n - 48) else None.

Definition is_underscore (c : ascii) : bool := (code c =? 95)%N.

Fixpoint skip_space (s : string) : string :=
  match s with
  | String c r => if is_space c then skip_space r else s
  | EmptyString => s
  end.

(** The scan over the digits of the literal: single underscores may
    separate digits, two in a row or one at the end are refused.  The
    result is the value read, the number of digits and the unread rest. *)
Fixpoint scan_digits (prev_underscore : bool) (acc : Z) (digits : nat)
    (s : string) : option (Z * nat * string) :=
  match s with
  | String c r =>
      if is_underscore c then
        if prev_underscore then None else scan_digits true acc digits r
      else
        match digit_value c with
        | Some d => scan_digits false (10 * acc + d) (S digits) r
        | None => if prev_underscore then None else Some (acc, digits, s)
        end
  | EmptyString => if prev_underscore then None else Some (acc, digits, s)
  end.

(** The interpreter's limit on the digits of a decimal literal
    ([sys.get_int_max_str_digits()]); 0 switches the limit off. *)
Definition over_digit_limit (max_str_digits digits : nat) : bool :=
  (0 <? max_str_digits)%nat && (max_str_digits <? digits)%nat.

(** [int(value)] for a [str] argument, base ten; [None] is [ValueError]. *)
Definition int (max_str_digits : nat) (value : string) : option Z :=
  let s1 := skip_space value in
  let '(sign, s2) :=
    match s1 with
    | String c r =>
        if (code c =? 43)%N then (1, r)
        else if (code c =? 45)%N then (-1, r)
        else (1, s1)
    | EmptyString => (1, s1)
    end in
  match s2 with
  | String c _ =>
      if is_underscore c then None
      else
        match scan_digits false 0 0 s2 with
        | Some (v, digits, rest) =>
            if (digits =? 0)%nat then None
            else if over_digit_limit max_str_digits digits then None
            else
              match skip_space rest with
              | EmptyString => Some (sign * v)
              | String _ _ => None
              end
        | None => None
        end
  | EmptyString => None
  end.

(** ** crud/app.py: module-level helpers *)

Definition id_path : string := "/single/{id}".

Definition construct_path (base_path path : string)
    (is_plural use_prefix : bool) : string :=
  let plural := if is_plural then "s" else "" in
  if negb use_prefix then base_path +:+ plural +:+ path
  else path.

Definition get_tags (name : string) (use_name_as_tag : bool) : list string :=
  if use_name_as_tag then [name] else [].

Definition get_prefix (name : string) (use_prefix : bool) : string :=
  if use_prefix then "/" +:+ name else "".

Definition convert2int (max_str_digits : nat) (value : string) : bool :=
  match int max_str_digits value with
  | Some _ => true
  | None => false
  end.

(** ** Handlers as state-passing computations

    A handler runs against the store state [S]; it either returns a value
    or raises, and the store keeps whatever was done before the raise. *)

Definition M (S A : Type) : Type := S -> Outcome A * S.

Definition ret {S A} (a : A) : M S A := fun st => (Return a, st).

Definition bind {S A B} (m : M S A) (f : A -> M S B) : M S B :=
  fun st =>
    match m st with
    | (Return a, st') => f a st'
    | (Raise e, st') => (Raise e, st')
    end.

Definition lift {S A} (o : Outcome A) : M S A := fun st => (o, st).

(** [try: body  except Exception as e: handler(e)] *)
Definition try_except {S A} (body : M S A) (handler : PyException -> M S A)
    : M S A :=
  fun st =>
    match body st with
    | (Return a, st') => (Return a, st')
    | (Raise e, st') => handler e st'
    end.

Notation "'let*' x ':=' m 'in' k" := (bind m (fun x => k))
  (at level 10, x name, m at level 100, k at level 200).

(** ** Collaborators: field descriptors, the data source, the factory *)

Inductive FieldTypes : Type := STR | INT | LIST.
Inductive FieldKeyTypes : Type := PRIMARY | REQUIRED | OPTIONAL.

(** [FieldBase(name, field_type, key_type, default)] *)
Record FieldBase : Type := mkFieldBase {
  field_name : string;
  field_type : FieldTypes;
  key_type : FieldKeyTypes;
  default : PyVal
}.

(** A Python [dict] with string keys, in insertion order. *)
Definition Dict (V : Type) : Type := list (string * V).

Fixpoint dict_get {V} (k : string) (d : Dict V) : option V :=
  match d with
  | [] => None
  | (k', v) :: r => if String.eqb k k' then Some v else dict_get k r
  end.

(** [d[k] = v]: an existing key keeps its position. *)
Fixpoint dict_set {V} (k : string) (v : V) (d : Dict V) : Dict V :=
  match d with
  | [] => [(k, v)]
  | (k', v') :: r =>
      if String.eqb k k' then (k, v) :: r else (k', v') :: dict_set k v r
  end.

Definition dict_values {V} (d : Dict V) : list V := map snd d.

(** The filter expression handed to [get_by_filter]: the populated
    filter fields with their values. *)
Definition FilterExpr : Type := Dict PyVal.

(** The operations [crud/app.py] consumes from the data source. *)
Record DataSource (S Entity Table : Type) : Type := mkDataSource {
  get_table : string -> S -> option Table;
  get_all : string -> M S (option (list Entity));
  get_by_filter : string -> FilterExpr -> M S (option (list Entity));
  get_by_id : string -> Identifier -> M S PyVal;
  insert : string -> Entity -> M S (option Entity);
  update : string -> Identifier -> Entity -> M S (option Entity);
  delete : string -> Identifier -> M S PyVal;
  clear : string -> M S PyVal
}.
Arguments get_table {S Entity Table} _ _ _.
Arguments get_all {S Entity Table} _ _ _.
Arguments get_by_filter {S Entity Table} _ _ _ _.
Arguments get_by_id {S Entity Table} _ _ _ _.
Arguments insert {S Entity Table} _ _ _ _.
Arguments update {S Entity Table} _ _ _ _ _.
Arguments delete {S Entity Table} _ _ _ _.
Arguments clear {S Entity Table} _ _ _.

(** [EntityFactory.create_entity(field_structure, payload)] *)
Record EntityFactory (FS Entity : Type) : Type := mkEntityFactory {
  create_entity : FS -> PyVal -> Outcome Entity
}.
Arguments create_entity {FS Entity} _ _ _.

(** ** crud/lib.py: the filter conversions *)




(** ** The request handlers of a route group

    The closures built by [CRUDApiRouter.__init__] capture the data
    source, the lowercased resource name [datatype], the table found for
    it and the factory.  [serialize] is [Entity.serialize] and
    [field_structure] is the table attribute of that name.  A request
    body arrives as the dictionary [item.model_dump()]. *)

Section Handlers.
Context {S Entity Table FS : Type}.
Variable max_str_digits : nat.
Variable datasource : DataSource S Entity Table.
Variable serialize : Entity -> Outcome PyVal.
Variable field_structure : Table -> FS.
Variable factory : EntityFactory FS Entity.
Variable datatype : string.
Variable table : Table.

(** [[entity.serialize() for entity in entities]] *)
Fixpoint format_entities (entities : list Entity) : Outcome (list PyVal) :=
  match entities with
  | [] => Return []
  | entity :: rest =>
      match serialize entity with
      | Raise e => Raise e
      | Return v =>
          match format_entities rest with
          | Raise e => Raise e
          | Return vs => Return (v :: vs)
          end
      end
  end.

(** [x or []] for a store result that is a list or [None]. *)
Definition or_empty (x : option (list Entity)) : list Entity :=
  match x with
  | Some (e :: r) => e :: r
  | Some [] => []
  | None => []
  end.

Definition read_items : M S PyVal :=
  let* found := get_all datasource datatype in
  let* result := lift (format_entities (or_empty found)) in
  ret (PList result).



Definition failure (e : PyException) : PyVal :=
  PDict [("success", PBool false); ("error", PStr (str e))].

Definition declined : PyVal := PDict [("success", PBool false)].

Definition create_item (item : PyVal) : M S PyVal :=
  try_except
    (let* entity := lift (create_entity factory (field_structure table) item) in
     let* result := insert datasource datatype entity in
     match result with
     | Some created =>
         let* body := lift (serialize created) in
         ret (PDict [("success", PBool true); ("created_entity", body)])
     | None => ret declined
     end)
    (fun e => ret (failure e)).

(** [if isinstance(item_id, str) and convert2int(item_id):
       item_id = int(item_id)] *)
Definition coerce_item_id (item_id : Identifier) : Outcome Identifier :=
  match item_id with
  | IdStr s =>
      if convert2int max_str_digits s then
        match int max_str_digits s with
        | Some n => Return (IdInt n)
        | None => Raise (ValueError "invalid literal for int() with base 10")
        end
      else Return item_id
  | IdInt _ => Return item_id
  end.

Definition update_item (item_id : Identifier) (item : PyVal) : M S PyVal :=
  try_except
    (let* entity := lift (create_entity factory (field_structure table) item) in
     let* item_id := lift (coerce_item_id item_id) in
     let* result := update datasource datatype item_id entity in
     match result with
     | Some updated =>
         let* body := lift (serialize updated) in
         ret (PDict [("success", PBool true); ("updated_entity", body)])
     | None => ret declined
     end)
    (fun e => ret (failure e)).

Definition delete_item (item_id : Identifier) : M S PyVal :=
  try_except
    (let* item_id := lift (coerce_item_id item_id) in
     let* result := delete datasource datatype item_id in
     if truthy result then
       ret (PDict [("success", PBool true); ("deleted_id", id_value item_id)])
     else ret declined)
    (fun e => ret (failure e)).

End Handlers.

(** ** Route groups *)

Inductive Method : Type := GET | POST | PUT | DELETE.

(** The handler a route is bound to. *)
Inductive Endpoint : Type :=
| EpReadItems
| EpFilterItems
| EpReadItem
| EpCreateItem
| EpUpdateItem
| EpDeleteItem
| EpDeleteAllItems.

Record Route : Type := mkRoute {
  route_method : Method;
  route_path : string;
  route_tags : list string;
  route_endpoint : Endpoint
}.

Record APIRouter : Type := mkAPIRouter {
  prefix : string;
  routes : list Route
}.

(** [@router.get(path, tags=tags)] and its siblings: the route is stored
    under the router's prefix followed by [path]. *)
Definition api_route (r : APIRouter) (m : Method) (path : string)
    (tags : list string) (ep : Endpoint) : APIRouter :=
  {| prefix := prefix r;
     routes := routes r ++ [mkRoute m (prefix r +:+ path) tags ep] |}.

Record CRUDApiRouter : Type := mkCRUDApiRouter {
  name : string;
  use_prefix : bool;
  use_name_as_tag : bool;
  is_included : bool;
  get_base : APIRouter
}.

(** [CRUDApiRouter.include] *)
Definition include (r : CRUDApiRouter) : CRUDApiRouter :=
  {| name := name r;
     use_prefix := use_prefix r;
     use_name_as_tag := use_name_as_tag r;
     is_included := true;
     get_base := get_base r |}.

Section RouteGroup.
Context {S Entity Table : Type}.
Variable datasource : DataSource S Entity Table.

(** [CRUDApiRouter.__init__]; [model_type] and [factory] are only
    captured by the handlers and do not shape the route table. *)
Definition CRUDApiRouter_init (st : S) (name : string)
    (use_prefix use_name_as_tag : bool) (filters : list FieldBase)
    : Outcome CRUDApiRouter :=
  let datatype := lower name in
  let tags := get_tags name use_name_as_tag in
  match get_table datasource datatype st with
  | None =>
      Raise (ValueError ("Table " +:+ datatype +:+ " not found in datasource"))
  | Some _ =>
      let base_path := "/" +:+ datatype in
      let r0 := mkAPIRouter (get_prefix datatype use_prefix) [] in
      let r1 := api_route r0 GET
                  (construct_path base_path "" true use_prefix)
                  tags EpReadItems in
      let r2 := if (0 <? length filters)%nat
                then api_route r1 GET
                       (construct_path base_path "/filter" true use_prefix)
                       tags EpFilterItems
                else r1 in
      let r3 := api_route r2 GET
                  (construct_path base_path id_path false use_prefix)
                  tags EpReadItem in
      let r4 := api_route r3 POST
                  (construct_path base_path "" false use_prefix)
                  tags EpCreateItem in
      let r5 := api_route r4 PUT
                  (construct_path base_path id_path false use_prefix)
                  tags EpUpdateItem in
      let r6 := api_route r5 DELETE
                  (construct_path base_path id_path false use_prefix)
                  tags EpDeleteItem in
      let r7 := api_route r6 DELETE
                  (construct_path base_path "" true use_prefix)
                  tags EpDeleteAllItems in
      Return {| name := name;
                use_prefix := use_prefix;
                use_name_as_tag := use_name_as_tag;
                is_included := false;
                get_base := r7 |}
  end.

(** ** The registry [CRUDApi]

    Route groups are objects: [objects] is the heap of the route groups
    built so far, addressed by position; the dictionary [routers] maps a
    resource name to the route group registered under it; [app] lists
    the routers handed to [FastAPI.include_router], one entry per
    call. *)
Record CRUDApi : Type := mkCRUDApi {
  objects : list CRUDApiRouter;
  routers : Dict nat;
  app : list APIRouter
}.

Definition CRUDApi_init : CRUDApi := mkCRUDApi [] [] [].

Definition get_router (api : CRUDApi) (datatype : string)
    : option CRUDApiRouter :=
  match dict_get datatype (routers api) with
  | Some r => objects api !! r
  | None => None
  end.

Definition register_router (st : S) (datatype : string)
    (use_prefix : bool) (filters : list FieldBase) (api : CRUDApi)
    : Outcome nat * CRUDApi :=
  match CRUDApiRouter_init st datatype use_prefix true filters with
  | Raise e => (Raise e, api)
  | Return router =>
      let r := length (objects api) in
      (Return r,
       {| objects := objects api ++ [router];
          routers := dict_set datatype r (routers api);
          app := app api |})
  end.

(** [self.__app.include_router(router.get_base())] *)
Definition app_include_router (api : CRUDApi) (r : nat) : CRUDApi :=
  match objects api !! r with
  | Some router =>
      {| objects := objects api;
         routers := routers api;
         app := app api ++ [get_base router] |}
  | None => api
  end.

(** [router.include()] on the route group at address [r]. *)
Definition router_include (api : CRUDApi) (r : nat) : CRUDApi :=
  {| objects := alter include r (objects api);
     routers := routers api;
     app := app api |}.

Definition include_router (st : S) (datatype : string)
    (use_prefix : bool) (filters : list FieldBase) (api : CRUDApi)
    : Outcome nat * CRUDApi :=
  match register_router st datatype use_prefix filters api with
  | (Raise e, api') => (Raise e, api')
  | (Return r, api') =>
      (Return r, router_include (app_include_router api' r) r)
  end.

Definition router_is_included (api : CRUDApi) (r : nat) : bool :=
  match objects api !! r with
  | Some router => is_included router
  | None => false
  end.

(** [for router in self.__routers.values():
       if not router.is_included:
           self.__app.include_router(router.get_base())] *)
Definition publish (api : CRUDApi) : CRUDApi :=
  fold_left
    (fun api r =>
       if negb (router_is_included api r) then app_include_router api r
       else api)
    (dict_values (routers api)) api.

(** Number of [include_router] calls the application has received. *)
Definition attach_count (api : CRUDApi) : nat := length (app api).

(** Setup scripts: sequences of registry calls.  A call that raises
    leaves the registry as it was. *)
Inductive Op : Type :=
| OpRegister (datatype : string) (use_prefix : bool) (filters : list FieldBase)
| OpInclude (datatype : string) (use_prefix : bool) (filters : list FieldBase)
| OpPublish.

Definition step (st : S) (api : CRUDApi) (op : Op) : CRUDApi :=
  match op with
  | OpRegister datatype use_prefix filters =>
      snd (register_router st datatype use_prefix filters api)
  | OpInclude datatype use_prefix filters =>
      snd (include_router st datatype use_prefix filters api)
  | OpPublish => publish api
  end.

Definition run (st : S) (ops : list Op) (api : CRUDApi) : CRUDApi :=
  fold_left (step st) ops api.

(** The state of the route group registered under a resource name. *)
Inductive GroupState : Type := Unregistered | Registered | Attached.

Definition group_state (api : CRUDApi) (datatype : string) : GroupState :=
  match get_router api datatype with
  | None => Unregistered
  | Some router => if is_included router then Attached else Registered
  end.

End RouteGroup.

(** ** A reference data source

    An in-memory store with the interface above, used to run the
    handlers and the registry on concrete inputs.  It keeps a log of the
    calls it receives. *)

Module MemStore.

Record Entity : Type := mkEntity {
  entity_id : Identifier;
  entity_fields : Dict PyVal
}.

Inductive StoreCall : Type :=
| CallGetAll (name : string)
| CallGetByFilter (name : string) (expr : FilterExpr)
| CallGetById (name : string) (id : Identifier)
| CallInsert (name : string) (entity : Entity)
| CallUpdate (name : string) (id : Identifier) (entity : Entity)
| CallDelete (name : string) (id : Identifier)
| CallClear (name : string).

Record State : Type := mkState {
  tables : Dict (list Entity);
  next_id : Z;
  calls : list StoreCall
}.

Definition log (c : StoreCall) (st : State) : State :=
  mkState (tables st) (next_id st) (calls st ++ [c]).

Definition with_rows (name : string) (rows : list Entity) (st : State)
    : State :=
  mkState (dict_set name rows (tables st)) (next_id st) (calls st).

Definition id_eqb (a b : Identifier) : bool :=
  match a, b with
  | IdInt x, IdInt y => x =? y
  | IdStr x, IdStr y => String.eqb x y
  | _, _ => false
  end.

Definition matches (expr : FilterExpr) (e : Entity) : bool :=
  forallb
    (fun kv =>
       match dict_get (fst kv) (entity_fields e) with
       | Some w => pyval_eqb w (snd kv)
       | None => false
       end)
    expr.

Definition serialize (e : Entity) : Outcome PyVal :=
  Return (PDict (("id", id_value (entity_id e)) :: entity_fields e)).

Definition no_table {A} (name : string) : Outcome A :=
  Raise (Exception "KeyError" name).

Definition has_id (id : Identifier) (e : Entity) : bool :=
  id_eqb (entity_id e) id.

Definition datasource : DataSource State Entity string :=
  {| get_table := fun name st =>
       match dict_get name (tables st) with
       | Some _ => Some name
       | None => None
       end;
     get_all := fun name st =>
       (Return (dict_get name (tables st)), log (CallGetAll name) st);
     get_by_filter := fun name expr st =>
       (Return (List.filter (matches expr) <$> dict_get name (tables st)),
        log (CallGetByFilter name expr) st);
     get_by_id := fun name id st =>
       (match dict_get name (tables st) with
        | Some rows =>
            match List.find (has_id id) rows with
            | Some e => serialize e
            | None => Return PNone
            end
        | None => no_table name
        end, log (CallGetById name id) st);
     insert := fun name entity st =>
       let st := log (CallInsert name entity) st in
       match dict_get name (tables st) with
       | Some rows =>
           let e := mkEntity (IdInt (next_id st)) (entity_fields entity) in
           (Return (Some e),
            mkState (dict_set name (rows ++ [e]) (tables st))
              (next_id st + 1) (calls st))
       | None => (no_table name, st)
       end;
     update := fun name id entity st =>
       let st := log (CallUpdate name id entity) st in
       match dict_get name (tables st) with
       | Some rows =>
           if existsb (has_id id) rows then
             let e := mkEntity id (entity_fields entity) in
             (Return (Some e),
              with_rows name
                (map (fun old => if has_id id old then e else old) rows) st)
           else (Return None, st)
       | None => (no_table name, st)
       end;
     delete := fun name id st =>
       let st := log (CallDelete name id) st in
       match dict_get name (tables st) with
       | Some rows =>
           if existsb (has_id id) rows then
             (Return (PBool true),
              with_rows name
                (List.filter (fun old => negb (has_id id old)) rows) st)
           else (Return (PBool false), st)
       | None => (no_table name, st)
       end;
     clear := fun name st =>
       let st := log (CallClear name) st in
       match dict_get name (tables st) with
       | Some _ => (Return (PBool true), with_rows name [] st)
       | None => (no_table name, st)
       end |}.

Definition field_structure (t : string) : unit := tt.

Definition factory : EntityFactory unit Entity :=
  {| create_entity := fun _ payload =>
       match payload with
       | PDict fields => Return (mkEntity (IdInt 0) fields)
       | _ => Raise (Exception "TypeError" "payload is not a mapping")
       end |}.

(** A store holding the table [event] with two records. *)
Definition open_event : Entity :=
  mkEntity (IdInt 7) [("status", PStr "open"); ("max_attendees", PInt 10)].
Definition closed_event : Entity :=
  mkEntity (IdInt (-5)) [("status", PStr "closed"); ("max_attendees", PInt 3)].

Definition events : State :=
  mkState [("event", [open_event; closed_event])] 8 [].

(** A store without tables. *)
Definition empty : State := mkState [] 0 [].

End MemStore.

(** The filter fields and a request body of scripts/lighthouse.py. *)
Definition status_filters : list FieldBase :=
  [mkFieldBase "date" STR OPTIONAL (PStr "");
   mkFieldBase "organizer" STR OPTIONAL (PStr "");
   mkFieldBase "status" STR OPTIONAL (PStr "");
   mkFieldBase "event_type" STR OPTIONAL (PStr "")].

Definition open_payload : PyVal :=
  PDict [("status", PStr "open"); ("max_attendees", PInt 10)].

(** ** Specification vocabulary *)

Definition is_digit (c : ascii) : bool :=
  match digit_value c with
  | Some _ => true
  | None => false
  end.

(** The string consists of the decimal digits 0-9 only. *)
Fixpoint digits_only (s : string) : bool :=
  match s with
  | EmptyString => true
  | String c r => is_digit c && digits_only r
  end.

(** The value of a digit string read in base ten. *)
Fixpoint digits_value (acc : Z) (s : string) : Z :=
  match s with
  | EmptyString => acc
  | String c r =>
      match digit_value c with
      | Some d => digits_value (10 * acc + d) r
      | None => acc
      end
  end.

(** The identifier the update and delete handlers hand to the store. *)
Definition store_id (max_str_digits : nat) (item_id : Identifier)
    : Identifier :=
  match item_id with
  | IdStr s =>
      match int max_str_digits s with
      | Some n => IdInt n
      | None => IdStr s
      end
  | IdInt n => IdInt n
  end.

(** Paths under which a route group serves a given handler. *)
Definition served_at (ep : Endpoint) (r : CRUDApiRouter) : list string :=
  map route_path
    (List.filter
       (fun rt => match route_endpoint rt, ep with
                  | EpReadItems, EpReadItems
                  | EpFilterItems, EpFilterItems
                  | EpReadItem, EpReadItem
                  | EpCreateItem, EpCreateItem
                  | EpUpdateItem, EpUpdateItem
                  | EpDeleteItem, EpDeleteItem
                  | EpDeleteAllItems, EpDeleteAllItems => true
                  | _, _ => false
                  end)
       (routes (get_base r))).

(** The route group at address [r] exists and is not marked included. *)
Definition unattached (api : CRUDApi) (r : nat) : bool :=
  match objects api !! r with
  | Some router => negb (is_included router)
  | None => false
  end.

(** Number of registered route groups that [publish] finds not yet
    marked included. *)
Definition pending (api : CRUDApi) : nat :=
  length (List.filter (unattached api) (dict_values (routers api))).

(** Every route group of [api] is still there in [api'], and marked
    included if it was. *)
Definition flags_kept (api api' : CRUDApi) : Prop :=
  forall r router,
    objects api !! r = Some router ->
    exists router',
      objects api' !! r = Some router'
      /\ (is_included router = true -> is_included router' = true).



(** Replies of the guarded handlers, by the store's answer. *)
Section Replies.
Context {S Entity : Type}.
Variable serialize : Entity -> Outcome PyVal.

(** What a handler answers once the store has replied with an entity
    (create, update): the entity is serialized inside the guard. *)
Definition entity_reply (key : string) (reply : Outcome (option Entity) * S)
    : Outcome PyVal * S :=
  match reply with
  | (Raise e, st') => (Return (failure e), st')
  | (Return None, st') => (Return declined, st')
  | (Return (Some entity), st') =>
      match serialize entity with
      | Raise e => (Return (failure e), st')
      | Return body =>
          (Return (PDict [("success", PBool true); (key, body)]), st')
      end
  end.

(** What the delete handler answers to the store's reply. *)
Definition delete_reply (id : Identifier) (reply : Outcome PyVal * S)
    : Outcome PyVal * S :=
  match reply with
  | (Raise e, st') => (Return (failure e), st')
  | (Return result, st') =>
      if truthy result then
        (Return (PDict [("success", PBool true); ("deleted_id", id_value id)]),
         st')
      else (Return declined, st')
  end.
End Replies.

(** ** Further vocabulary *)

Fixpoint all_chars (p : ascii -> bool) (s : string) : bool :=
  match s with
  | EmptyString => true
  | String c r => p c && all_chars p r
  end.

Fixpoint any_char (p : ascii -> bool) (s : string) : bool :=
  match s with
  | EmptyString => false
  | String c r => p c || any_char p r
  end.

Definition is_sign (c : ascii) : bool :=
  ((code c =? 43) || (code c =? 45))%N.

(** The characters a literal accepted by [int] is made of. *)
Definition literal_char (c : ascii) : bool :=
  is_space c || is_digit c || is_underscore c || is_sign c.

(** A field of a handler's answer. *)
Definition body_get (k : string) (body : PyVal) : option PyVal :=
  match body with
  | PDict entries => dict_get k entries
  | _ => None
  end.

(** Verb and path of a route: what a request is matched against. *)
Definition verb_path (rt : Route) : Method * string :=
  (route_method rt, route_path rt).

(** What of a route does not depend on the case of the resource name. *)
Definition route_shape (rt : Route) : Method * string * Endpoint :=
  (route_method rt, route_path rt, route_endpoint rt).

(** Every entry of the registry points to a route group of the heap, and
    that route group carries the entry's key as its name; no key occurs
    twice. *)
Definition well_formed (api : CRUDApi) : Prop :=
  Forall
    (fun kv => exists router,
         objects api !! snd kv = Some router /\ name router = fst kv)
    (routers api)
  /\ List.NoDup (map fst (routers api)).

(** Every registered route group is marked included. *)
Definition all_included (api : CRUDApi) : Prop :=
  Forall (fun kv => router_is_included api (snd kv) = true) (routers api).

(** The routers a [publish] hands to the application, in the order of
    the registry. *)
Definition pending_bases (api : CRUDApi) : list APIRouter :=
  omap
    (fun r => match objects api !! r with
              | Some router =>
                  if is_included router then None else Some (get_base router)
              | None => None
              end)
    (dict_values (routers api)).

Definition is_register (op : Op) : bool :=
  match op with
  | OpRegister _ _ _ => true
  | _ => false
  end.

(** * Properties *)

(** ** Integer parsing *)

Example int_accepts :
  int 4300 "42" = Some 42 /\ int 4300 "007" = Some 7
  /\ int 4300 " -5 " = Some (-5) /\ int 4300 "+3" = Some 3
  /\ int 4300 "1_000" = Some 1000.
Proof. repeat split; reflexivity. Qed.

Example int_rejects :
  int 4300 "" = None /\ int 4300 "12a" = None /\ int 4300 "1.5" = None
  /\ int 4300 "- 5" = None /\ int 4300 "1__0" = None
  /\ int 4300 "_1" = None /\ int 4300 "1_" = None /\ int 4300 "+" = None
  /\ int 2 "123" = None.
Proof. repeat split; reflexivity. Qed.

Example lower_Event : lower "Event" = "event".
Proof. reflexivity. Qed.

Lemma digit_char (c : ascii) (d : Z) :
  digit_value c = Some d ->
  is_space c = false /\ is_underscore c = false
  /\ (code c =? 43)%N = false /\ (code c =? 45)%N = false.
Proof.
  destruct c as [[] [] [] [] [] [] [] []]; vm_compute;
    intros H; try discriminate H; repeat split.
Qed.

Lemma scan_digits_digits_only (s : string) :
  forall acc n,
    digits_only s = true ->
    scan_digits false acc n s
    = Some (digits_value acc s, (n + String.length s)%nat, EmptyString).
Proof.
  induction s as [|c r IH]; intros acc n Hd; simpl in *.
  - now rewrite Nat.add_0_r.
  - apply andb_true_iff in Hd as [Hc Hr].
    unfold is_digit in Hc.
    destruct (digit_value c) as [d|] eqn:Ed; [|discriminate].
    destruct (digit_char c d Ed) as (_ & Hu & _).
    rewrite Hu, (IH _ _ Hr).
    now rewrite Nat.add_succ_r.
Qed.

Lemma int_digits_only (max_str_digits : nat) (s : string) :
  s <> EmptyString ->
  digits_only s = true ->
  over_digit_limit max_str_digits (String.length s) = false ->
  int max_str_digits s = Some (digits_value 0 s).
Proof.
  intros Hne Hd Hlim.
  destruct s as [|c r]; [congruence|].
  pose proof Hd as Hd'. simpl in Hd'.
  apply andb_true_iff in Hd' as [Hc _].
  unfold is_digit in Hc.
  destruct (digit_value c) as [d|] eqn:Ed; [|discriminate].
  destruct (digit_char c d Ed) as (Hs & Hu & Hp & Hm).
  unfold int.
  cbn [skip_space]. rewrite Hs, Hp, Hm, Hu.
  rewrite (scan_digits_digits_only _ 0 0%nat Hd).
  cbn [Nat.add]. rewrite Hlim.
  cbn [String.length Nat.eqb skip_space].
  now rewrite Z.mul_1_l.
Qed.

Lemma coerce_item_id_store_id (max_str_digits : nat) (item_id : Identifier) :
  coerce_item_id max_str_digits item_id
  = Return (store_id max_str_digits item_id).
Proof.
  destruct item_id as [n|s]; [reflexivity|].
  unfold coerce_item_id, convert2int, store_id.
  now destruct (int max_str_digits s).
Qed.

(** ** The mutating handlers *)

Section HandlerProperties.
Context {S Entity Table FS : Type}.
Variable max_str_digits : nat.
Variable datasource : DataSource S Entity Table.
Variable serialize : Entity -> Outcome PyVal.
Variable field_structure : Table -> FS.
Variable factory : EntityFactory FS Entity.
Variable datatype : string.
Variable table : Table.

Lemma create_item_run (item : PyVal) (st : S) :
  create_item datasource serialize field_structure factory datatype table
    item st
  = match create_entity factory (field_structure table) item with
    | Raise e => (Return (failure e), st)
    | Return entity =>
        entity_reply serialize "created_entity" (insert datasource datatype entity st)
    end.
Proof.
  unfold create_item, try_except, bind, lift, ret, entity_reply.
  destruct (create_entity factory (field_structure table) item) as [entity|e];
    [|reflexivity].
  destruct (insert datasource datatype entity st) as [[[created|]|e] st'];
    try reflexivity.
  now destruct (serialize created).
Qed.

Lemma update_item_run (item_id : Identifier) (item : PyVal) (st : S) :
  update_item max_str_digits datasource serialize field_structure factory
    datatype table item_id item st
  = match create_entity factory (field_structure table) item with
    | Raise e => (Return (failure e), st)
    | Return entity =>
        entity_reply serialize "updated_entity"
          (update datasource datatype (store_id max_str_digits item_id)
             entity st)
    end.
Proof.
  unfold update_item, try_except, bind, lift, ret, entity_reply.
  destruct (create_entity factory (field_structure table) item) as [entity|e];
    [|reflexivity].
  rewrite coerce_item_id_store_id.
  destruct (update datasource datatype _ entity st) as [[[updated|]|e] st'];
    try reflexivity.
  now destruct (serialize updated).
Qed.

Lemma delete_item_run (item_id : Identifier) (st : S) :
  delete_item max_str_digits datasource datatype item_id st
  = delete_reply (store_id max_str_digits item_id)
      (delete datasource datatype (store_id max_str_digits item_id) st).
Proof.
  unfold delete_item, try_except, bind, lift, ret, delete_reply.
  rewrite coerce_item_id_store_id.
  destruct (delete datasource datatype _ st) as [[result|e] st'];
    [|reflexivity].
  now destruct (truthy result).
Qed.




(** C2, amended.  A string identifier is converted exactly when
    [int] parses it, and then the store receives the parsed integer;
    a string that [int] rejects reaches the store unchanged.  A
    non-empty string of decimal digits within the interpreter's digit
    limit is always parsed, to its decimal value. *)
Theorem string_identifier_reaches_store_as_parsed (s : string) :
  let id := match int max_str_digits s with
            | Some n => IdInt n
            | None => IdStr s
            end in
  (forall st,
      delete_item max_str_digits datasource datatype (IdStr s) st
      = delete_reply id (delete datasource datatype id st))
  /\ (forall item entity st,
         create_entity factory (field_structure table) item = Return entity ->
         update_item max_str_digits datasource serialize field_structure
           factory datatype table (IdStr s) item st
         = entity_reply serialize "updated_entity"
             (update datasource datatype id entity st))
  /\ (s <> EmptyString ->
      digits_only s = true ->
      over_digit_limit max_str_digits (String.length s) = false ->
      int max_str_digits s = Some (digits_value 0 s)).
Proof.
  cbv zeta. split; [|split].
  - intros st. apply delete_item_run.
  - intros item entity st Hmake.
    rewrite update_item_run, Hmake. reflexivity.
  - apply int_digits_only.
Qed.

(** C10.  After a successful delete whose identifier was a string that
    [int] parses, [deleted_id] in the answer is the parsed integer that
    was handed to the store. *)
Theorem delete_reports_coerced_id
    (s : string) (n : Z) (st st' : S) (result : PyVal) :
  int max_str_digits s = Some n ->
  delete datasource datatype (IdInt n) st = (Return result, st') ->
  truthy result = true ->
  delete_item max_str_digits datasource datatype (IdStr s) st
  = (Return (PDict [("success", PBool true); ("deleted_id", PInt n)]), st').
Proof.
  intros Hint Hdel Htrue.
  rewrite delete_item_run. unfold store_id. rewrite Hint, Hdel.
  simpl. now rewrite Htrue.
Qed.

(** C9.  The list handler answers with the serialization of every
    record the store returns for the resource, in order, and with the
    empty list when the store returns none. *)
Theorem read_items_serializes_all
    (found : option (list Entity)) (st st' : S) :
  get_all datasource datatype st = (Return found, st') ->
  (forall bodies,
      Forall2 (fun entity body => serialize entity = Return body)
        (or_empty found) bodies ->
      read_items datasource serialize datatype st
      = (Return (PList bodies), st'))
  /\ (found = None \/ found = Some [] ->
      read_items datasource serialize datatype st = (Return (PList []), st')).
Proof.
  intros Hall.
  assert (Hfmt : forall entities bodies,
             Forall2 (fun entity body => serialize entity = Return body)
               entities bodies ->
             format_entities serialize entities = Return bodies).
  { induction 1 as [|entity body entities bodies Hs _ IH]; simpl.
    - reflexivity.
    - now rewrite Hs, IH. }
  unfold read_items, bind, lift, ret. rewrite Hall. split.
  - intros bodies Hb. now rewrite (Hfmt _ _ Hb).
  - intros [->| ->]; reflexivity.
Qed.
End HandlerProperties.

(** ** Route groups *)

Lemma append_empty_r (s : string) : s +:+ "" = s.
Proof.
  induction s as [|c r IH]; [reflexivity|].
  change (String c (r +:+ "") = String c r). now rewrite IH.
Qed.

Section RouteGroupProperties.
Context {S Entity Table : Type}.
Variable datasource : DataSource S Entity Table.

(** C3, amended.  With automatic prefixing (the default) the route
    group carries the prefix [/resource] and the collection handlers
    (list, delete-all) are registered with the raw path, so they are
    served at [/resource]; without prefixing they are served at the
    pluralized [/resources].  The single-item handlers are served at
    [/resource/single/{id}] either way.  The resource is the lowercased
    name. *)
Theorem collection_and_item_paths
    (st : S) (name : string) (use_prefix use_name_as_tag : bool)
    (filters : list FieldBase) (r : CRUDApiRouter) :
  CRUDApiRouter_init datasource st name use_prefix use_name_as_tag filters
  = Return r ->
  let resource := lower name in
  let collection :=
    if use_prefix then "/" +:+ resource else "/" +:+ resource +:+ "s" in
  let single := "/" +:+ resource +:+ "/single/{id}" in
  prefix (get_base r) = (if use_prefix then "/" +:+ resource else "")
  /\ construct_path ("/" +:+ resource) "" true use_prefix
     = (if use_prefix then "" else "/" +:+ resource +:+ "s")
  /\ served_at EpReadItems r = [collection]
  /\ served_at EpDeleteAllItems r = [collection]
  /\ served_at EpReadItem r = [single]
  /\ served_at EpUpdateItem r = [single]
  /\ served_at EpDeleteItem r = [single].
Proof.
  unfold CRUDApiRouter_init.
  destruct (get_table datasource (lower name) st) as [t|]; [|discriminate].
  intros [= <-].
  destruct use_prefix, filters as [|f fs];
    cbn; rewrite ?append_empty_r; repeat split; reflexivity.
Qed.

(** C6.  A route group has a route bound to the filter handler exactly
    when it was built with a non-empty list of filter fields. *)
Theorem filter_route_iff_filters
    (st : S) (name : string) (use_prefix use_name_as_tag : bool)
    (filters : list FieldBase) (r : CRUDApiRouter) :
  CRUDApiRouter_init datasource st name use_prefix use_name_as_tag filters
  = Return r ->
  ((exists rt, In rt (routes (get_base r))
               /\ route_endpoint rt = EpFilterItems)
   <-> filters <> [])
  /\ (filters = [] -> served_at EpFilterItems r = [])
  /\ (filters <> [] ->
      served_at EpFilterItems r
      = [get_prefix (lower name) use_prefix
         +:+ construct_path ("/" +:+ lower name) "/filter" true use_prefix]).
Proof.
  unfold CRUDApiRouter_init.
  destruct (get_table datasource (lower name) st) as [t|]; [|discriminate].
  intros [= <-].
  destruct filters as [|f fs]; cbn.
  - repeat split; try congruence.
    intros (rt & Hin & Hep).
    repeat (destruct Hin as [<-|Hin]; [discriminate Hep|]).
    destruct Hin.
  - repeat split; try congruence.
    exists (mkRoute GET
              (get_prefix (lower name) use_prefix
               +:+ construct_path ("/" +:+ lower name) "/filter" true
                     use_prefix)
              (get_tags name use_name_as_tag) EpFilterItems).
    split; [right; left; reflexivity|reflexivity].
Qed.

(** C8.  When the data source has no table for the lowercased resource
    name, building the route group raises [ValueError] at once: no
    route group exists, and [register_router] and [include_router]
    pass the error on with the registry and the application as they
    were. *)
Theorem missing_table_raises_at_setup
    (st : S) (name : string) (use_prefix use_name_as_tag : bool)
    (filters : list FieldBase) :
  get_table datasource (lower name) st = None ->
  let error :=
    ValueError ("Table " +:+ lower name +:+ " not found in datasource") in
  CRUDApiRouter_init datasource st name use_prefix use_name_as_tag filters
  = Raise error
  /\ (forall api,
        register_router datasource st name use_prefix filters api
        = (Raise error, api))
  /\ (forall api,
        include_router datasource st name use_prefix filters api
        = (Raise error, api)).
Proof.
  intros Hnone. cbv zeta.
  assert (Hinit : forall tag,
             CRUDApiRouter_init datasource st name use_prefix tag filters
             = Raise (ValueError
                        ("Table " +:+ lower name +:+ " not found in datasource"))).
  { intros tag. unfold CRUDApiRouter_init. now rewrite Hnone. }
  split; [apply Hinit|].
  split; intros api; unfold include_router, register_router;
    now rewrite Hinit.
Qed.
End RouteGroupProperties.

(** ** The registry *)

Lemma dict_get_set {V} (k k' : string) (v : V) (d : Dict V) :
  dict_get k (dict_set k' v d)
  = if String.eqb k k' then Some v else dict_get k d.
Proof.
  induction d as [|[k0 v0] d IH]; simpl.
  - reflexivity.
  - destruct (String.eqb_spec k' k0) as [->|Hne]; simpl.
    + now destruct (String.eqb k k0).
    + rewrite IH.
      destruct (String.eqb_spec k k0) as [->|Hne'];
        destruct (String.eqb_spec k0 k') as [->|Hne'']; congruence.
Qed.

Lemma app_include_router_same (api : CRUDApi) (r : nat) :
  objects (app_include_router api r) = objects api
  /\ routers (app_include_router api r) = routers api
  /\ attach_count (app_include_router api r)
     = (attach_count api
        + match objects api !! r with Some _ => 1 | None => 0 end)%nat.
Proof.
  unfold app_include_router, attach_count.
  destruct (objects api !! r); simpl.
  - rewrite length_app. simpl. repeat split; lia.
  - repeat split; lia.
Qed.

(** The loop of [publish], from any point of the iteration. *)
Lemma publish_loop (rs : list nat) :
  forall api,
    let api' :=
      fold_left
        (fun api r =>
           if negb (router_is_included api r) then app_include_router api r
           else api) rs api in
    objects api' = objects api
    /\ routers api' = routers api
    /\ attach_count api'
       = (attach_count api + length (List.filter (unattached api) rs))%nat.
Proof.
  induction rs as [|r rs IH]; intros api; cbv zeta; simpl.
  - repeat split; lia.
  - set (api1 := if negb (router_is_included api r)
                 then app_include_router api r else api).
    assert (H1 : objects api1 = objects api /\ routers api1 = routers api
                 /\ attach_count api1
                    = (attach_count api
                       + if unattached api r then 1 else 0)%nat).
    { subst api1. unfold router_is_included, unattached.
      destruct (app_include_router_same api r) as (Ho & Hr & Hc).
      destruct (objects api !! r) as [router|] eqn:E; simpl.
      - destruct (is_included router); simpl; repeat split; auto; lia.
      - repeat split; auto; lia. }
    destruct H1 as (Ho & Hr & Hc).
    destruct (IH api1) as (Ho' & Hr' & Hc'). cbv zeta in *.
    rewrite Ho', Hr', Hc', Ho, Hr, Hc.
    assert (Hu : forall x, unattached api1 x = unattached api x)
      by (intros x; unfold unattached; now rewrite Ho).
    rewrite (filter_ext _ _ Hu).
    destruct (unattached api r); simpl; repeat split; lia.
Qed.

Lemma publish_same (api : CRUDApi) :
  objects (publish api) = objects api
  /\ routers (publish api) = routers api
  /\ attach_count (publish api) = (attach_count api + pending api)%nat.
Proof. apply (publish_loop (dict_values (routers api)) api). Qed.

Lemma pending_publish (api : CRUDApi) : pending (publish api) = pending api.
Proof.
  destruct (publish_same api) as (Ho & Hr & _).
  unfold pending. rewrite Hr. f_equal. apply filter_ext.
  intros r. unfold unattached. now rewrite Ho.
Qed.





Section RegistryProperties.
Context {S Entity Table : Type}.
Variable datasource : DataSource S Entity Table.
Variable st : S.





End RegistryProperties.

(** C1.  [publish] hands every registered route group that is not
    marked included to the application and leaves the marks as they
    are, so a second [publish] hands over the same route groups again:
    the attach count grows by the number of pending route groups at each
    call.  After [register_router("event", ...)] on a store with that
    table, the first [publish] brings the count to 1 and the second
    to 2. *)
Theorem publish_twice_attaches_again :
  (forall api,
      attach_count (publish api) = (attach_count api + pending api)%nat
      /\ pending (publish api) = pending api
      /\ attach_count (publish (publish api))
         = (attach_count (publish api) + pending api)%nat)
  /\ (let api :=
        snd (register_router MemStore.datasource MemStore.events "event" true
               [] CRUDApi_init) in
      attach_count api = 0%nat
      /\ attach_count (publish api) = 1%nat
      /\ attach_count (publish (publish api)) = 2%nat).
Proof.
  split.
  - intros api.
    destruct (publish_same api) as (_ & _ & Hc).
    destruct (publish_same (publish api)) as (_ & _ & Hc').
    rewrite pending_publish in Hc'. auto using pending_publish.
  - vm_compute. auto.
Qed.

(** ** The filter handler *)



Section FilterProperties.
Context {S Entity Table : Type}.
Variable datasource : DataSource S Entity Table.
Variable serialize : Entity -> Outcome PyVal.
Variable datatype : string.

End FilterProperties.

(** * Concrete runs on the reference store *)

(** The digit string "42" is parsed and reaches the store of the delete
    and update handlers as the integer 42. *)
Lemma string_identifier_reaches_store_as_parsed_witness :
  int 4300 "42" = Some 42
  /\ MemStore.calls
       (snd (delete_item 4300 MemStore.datasource "event" (IdStr "42")
               MemStore.events))
     = [MemStore.CallDelete "event" (IdInt 42)]
  /\ MemStore.calls
       (snd (update_item 4300 MemStore.datasource MemStore.serialize
               MemStore.field_structure MemStore.factory "event" "event"
               (IdStr "42") open_payload MemStore.events))
     = [MemStore.CallUpdate "event" (IdInt 42)
          (MemStore.mkEntity (IdInt 0)
             [("status", PStr "open"); ("max_attendees", PInt 10)])].
Proof.
  destruct (string_identifier_reaches_store_as_parsed 4300 MemStore.datasource
              MemStore.serialize MemStore.field_structure MemStore.factory
              "event" "event" "42") as (Hdel & Hupd & Hint).
  split; [|split].
  - apply Hint; [discriminate|reflexivity|reflexivity].
  - rewrite Hdel. reflexivity.
  - rewrite (Hupd open_payload
               (MemStore.mkEntity (IdInt 0)
                  [("status", PStr "open"); ("max_attendees", PInt 10)])
               MemStore.events eq_refl).
    reflexivity.
Defined.

(** The string "-5" is not made of decimal digits only, yet the delete
    and update handlers hand the integer -5 to the store. *)
Lemma signed_string_is_coerced :
  digits_only "-5" = false
  /\ MemStore.calls
       (snd (delete_item 4300 MemStore.datasource "event" (IdStr "-5")
               MemStore.events))
     = [MemStore.CallDelete "event" (IdInt (-5))]
  /\ MemStore.calls
       (snd (update_item 4300 MemStore.datasource MemStore.serialize
               MemStore.field_structure MemStore.factory "event" "event"
               (IdStr "-5") open_payload MemStore.events))
     = [MemStore.CallUpdate "event" (IdInt (-5))
          (MemStore.mkEntity (IdInt 0)
             [("status", PStr "open"); ("max_attendees", PInt 10)])]
  /\ ~ (forall s, digits_only s = false ->
                  store_id 4300 (IdStr s) = IdStr s).
Proof.
  repeat split; try reflexivity.
  intros H. specialize (H "-5" eq_refl). discriminate H.
Qed.

(** Deleting "7" on the event store answers with the integer 7. *)
Lemma delete_reports_coerced_id_witness :
  int 4300 "7" = Some 7
  /\ delete_item 4300 MemStore.datasource "event" (IdStr "7") MemStore.events
     = (Return (PDict [("success", PBool true); ("deleted_id", PInt 7)]),
        MemStore.mkState [("event", [MemStore.closed_event])] 8
          [MemStore.CallDelete "event" (IdInt 7)]).
Proof.
  split; [reflexivity|].
  apply (delete_reports_coerced_id 4300 MemStore.datasource "event" "7" 7
           MemStore.events _ (PBool true)); reflexivity.
Defined.

(** The list handler on the event store, and on a store whose table is
    empty. *)
Lemma read_items_serializes_all_witness :
  read_items MemStore.datasource MemStore.serialize "event" MemStore.events
  = (Return
       (PList
          [PDict [("id", PInt 7); ("status", PStr "open");
                  ("max_attendees", PInt 10)];
           PDict [("id", PInt (-5)); ("status", PStr "closed");
                  ("max_attendees", PInt 3)]]),
     MemStore.log (MemStore.CallGetAll "event") MemStore.events)
  /\ read_items MemStore.datasource MemStore.serialize "event"
       (MemStore.mkState [("event", [])] 0 [])
     = (Return (PList []),
        MemStore.mkState [("event", [])] 0 [MemStore.CallGetAll "event"]).
Proof.
  split.
  - apply (read_items_serializes_all MemStore.datasource MemStore.serialize
             "event"
             (Some [MemStore.open_event; MemStore.closed_event])
             MemStore.events _ eq_refl).
    repeat constructor.
  - apply (read_items_serializes_all MemStore.datasource MemStore.serialize
             "event" (Some []) (MemStore.mkState [("event", [])] 0 [])
             _ eq_refl).
    now right.
Defined.

(** The route group of "Event" with the default prefixing. *)
Lemma collection_and_item_paths_witness :
  exists r,
    CRUDApiRouter_init MemStore.datasource MemStore.events "Event" true true []
    = Return r
    /\ served_at EpReadItems r = ["/event"]
    /\ served_at EpDeleteAllItems r = ["/event"]
    /\ served_at EpReadItem r = ["/event/single/{id}"].
Proof.
  eexists. split; [reflexivity|].
  destruct (collection_and_item_paths MemStore.datasource MemStore.events
              "Event" true true [] _ eq_refl)
    as (_ & _ & Hlist & Hclear & Hone & _).
  repeat split; assumption.
Defined.

(** With the default prefixing the collection handlers of "event" are
    served at /event, not at /events; without prefixing they are served
    at /events, not at the raw path. *)
Lemma prefixed_collection_path_is_not_plural :
  (exists r,
      CRUDApiRouter_init MemStore.datasource MemStore.events "event" true true []
      = Return r
      /\ served_at EpReadItems r = ["/event"]
      /\ served_at EpDeleteAllItems r = ["/event"]
      /\ served_at EpReadItems r <> ["/events"])
  /\ (exists r,
         CRUDApiRouter_init MemStore.datasource MemStore.events "event" false
           true []
         = Return r
         /\ served_at EpReadItems r = ["/events"]
         /\ served_at EpDeleteAllItems r = ["/events"])
  /\ construct_path "/event" "" true true = ""
  /\ construct_path "/event" "" true false = "/events".
Proof.
  split; [|split; [|split; reflexivity]].
  - eexists. split; [reflexivity|]. repeat split. discriminate.
  - eexists. split; [reflexivity|]. repeat split.
Qed.

(** The route group of "event" with and without filter fields. *)
Lemma filter_route_iff_filters_witness :
  (exists r,
      CRUDApiRouter_init MemStore.datasource MemStore.events "event" true true
        status_filters = Return r
      /\ served_at EpFilterItems r = ["/event/filter"])
  /\ (exists r,
         CRUDApiRouter_init MemStore.datasource MemStore.events "event" true
           true [] = Return r
         /\ served_at EpFilterItems r = []).
Proof.
  split; eexists; (split; [reflexivity|]).
  - destruct (filter_route_iff_filters MemStore.datasource MemStore.events
                "event" true true status_filters _ eq_refl) as (_ & _ & H).
    apply H. discriminate.
  - destruct (filter_route_iff_filters MemStore.datasource MemStore.events
                "event" true true [] _ eq_refl) as (_ & H & _).
    apply H. reflexivity.
Defined.

(** Registering "Event" on a store without tables. *)
Lemma missing_table_raises_at_setup_witness :
  get_table MemStore.datasource (lower "Event") MemStore.empty = None
  /\ register_router MemStore.datasource MemStore.empty "Event" true []
       CRUDApi_init
     = (Raise (ValueError "Table event not found in datasource"), CRUDApi_init).
Proof.
  split; [reflexivity|].
  destruct (missing_table_raises_at_setup MemStore.datasource MemStore.empty
              "Event" true true [] eq_refl) as (_ & Hreg & _).
  apply Hreg.
Defined.





(** * Further properties *)

(** ** Which strings [convert2int] accepts *)

Lemma all_chars_impl (p q : ascii -> bool) (s : string) :
  (forall c, p c = true -> q c = true) ->
  all_chars p s = true -> all_chars q s = true.
Proof.
  intros Hpq. induction s as [|c r IH]; simpl; [reflexivity|].
  intros [Hc Hr]%andb_true_iff. now rewrite (Hpq c Hc), IH.
Qed.

Lemma skip_space_empty (s : string) :
  skip_space s = EmptyString -> all_chars is_space s = true.
Proof.
  induction s as [|c r IH]; simpl; [reflexivity|].
  destruct (is_space c); [exact IH|discriminate].
Qed.

Lemma skip_space_literal (s : string) :
  all_chars literal_char (skip_space s) = true ->
  all_chars literal_char s = true.
Proof.
  induction s as [|c r IH]; simpl; [reflexivity|].
  destruct (is_space c) eqn:Hs; [|exact id].
  intros H. unfold literal_char at 1. rewrite Hs. simpl. now apply IH.
Qed.

Lemma skip_space_any (p : ascii -> bool) (s : string) :
  any_char p (skip_space s) = true -> any_char p s = true.
Proof.
  induction s as [|c r IH]; simpl; [exact id|].
  destruct (is_space c); [|exact id].
  intros H. rewrite (IH H). apply orb_true_r.
Qed.

Lemma scan_digits_literal (s : string) :
  forall prev acc n v d rest,
    scan_digits prev acc n s = Some (v, d, rest) ->
    all_chars literal_char rest = true ->
    all_chars literal_char s = true.
Proof.
  induction s as [|c r IH]; intros prev acc n v d rest; simpl.
  - destruct prev; intros [= _ _ <-]; auto.
  - destruct (is_underscore c) eqn:Hu.
    + destruct prev; [discriminate|]. intros Hscan Hrest.
      unfold literal_char at 1. rewrite Hu, !orb_true_r. simpl.
      eapply IH; eauto.
    + destruct (digit_value c) as [x|] eqn:Hd.
      * intros Hscan Hrest.
        unfold literal_char at 1, is_digit. rewrite Hd, !orb_true_r. simpl.
        eapply IH; eauto.
      * destruct prev; [discriminate|]. intros [= _ _ <-]. exact id.
Qed.

Lemma scan_digits_count (s : string) :
  forall prev acc n v d rest,
    scan_digits prev acc n s = Some (v, d, rest) ->
    d <> n -> any_char is_digit s = true.
Proof.
  induction s as [|c r IH]; intros prev acc n v d rest; simpl.
  - destruct prev; intros [= _ <- _]; congruence.
  - destruct (is_underscore c).
    + destruct prev; [discriminate|]. intros Hscan Hne.
      rewrite (IH _ _ _ _ _ _ Hscan Hne). apply orb_true_r.
    + unfold is_digit at 1. destruct (digit_value c) as [x|]; [reflexivity|].
      destruct prev; [discriminate|]. intros [= _ <- _]; congruence.
Qed.

Lemma int_tail_literal (max_str_digits : nat) (sign : Z) (s2 : string) (n : Z) :
  match s2 with
  | String c _ =>
      if is_underscore c then None
      else
        match scan_digits false 0 0 s2 with
        | Some (v, digits, rest) =>
            if (digits =? 0)%nat then None
            else if over_digit_limit max_str_digits digits then None
            else match skip_space rest with
                 | EmptyString => Some (sign * v)
                 | String _ _ => None
                 end
        | None => None
        end
  | EmptyString => None
  end = Some n ->
  all_chars literal_char s2 = true /\ any_char is_digit s2 = true.
Proof.
  destruct s2 as [|c r]; [discriminate|].
  destruct (is_underscore c); [discriminate|].
  destruct (scan_digits false 0 0 (String c r)) as [[[v d] rest]|] eqn:Hscan;
    [|discriminate].
  destruct (d =? 0)%nat eqn:Hd; [discriminate|].
  apply Nat.eqb_neq in Hd.
  destruct (over_digit_limit max_str_digits d); [discriminate|].
  destruct (skip_space rest) eqn:Hrest; [|discriminate].
  intros _. split.
  - eapply scan_digits_literal; eauto.
    apply (all_chars_impl is_space); [|now apply skip_space_empty].
    intros c0 Hc0. unfold literal_char. now rewrite Hc0.
  - eapply scan_digits_count; eauto.
Qed.

Lemma int_literal (max_str_digits : nat) (s : string) (n : Z) :
  int max_str_digits s = Some n ->
  all_chars literal_char s = true /\ any_char is_digit s = true.
Proof.
  unfold int. intros H.
  enough (all_chars literal_char (skip_space s) = true
          /\ any_char is_digit (skip_space s) = true) as [H1 H2].
  { split; [now apply skip_space_literal|now apply (skip_space_any is_digit)]. }
  destruct (skip_space s) as [|c r]; [discriminate H|].
  destruct (code c =? 43)%N eqn:Hplus; [|destruct (code c =? 45)%N eqn:Hminus].
  - apply int_tail_literal in H as [H1 H2]. simpl.
    unfold literal_char at 1, is_sign. rewrite Hplus, H1, H2.
    now rewrite !orb_true_r.
  - apply int_tail_literal in H as [H1 H2]. simpl.
    unfold literal_char at 1, is_sign. rewrite Hminus, H1, H2.
    now rewrite !orb_true_r.
  - exact (int_tail_literal max_str_digits 1 (String c r) n H).
Qed.

Lemma int_tail_digits (max_str_digits : nat) (sign : Z) (s : string) :
  s <> EmptyString ->
  digits_only s = true ->
  over_digit_limit max_str_digits (String.length s) = false ->
  match s with
  | String c _ =>
      if is_underscore c then None
      else
        match scan_digits false 0 0 s with
        | Some (v, digits, rest) =>
            if (digits =? 0)%nat then None
            else if over_digit_limit max_str_digits digits then None
            else match skip_space rest with
                 | EmptyString => Some (sign * v)
                 | String _ _ => None
                 end
        | None => None
        end
  | EmptyString => None
  end = Some (sign * digits_value 0 s).
Proof.
  intros Hne Hd Hlim.
  destruct s as [|c r]; [congruence|].
  pose proof Hd as Hd'. simpl in Hd'.
  apply andb_true_iff in Hd' as [Hc _].
  unfold is_digit in Hc.
  destruct (digit_value c) as [d|] eqn:Ed; [|discriminate].
  destruct (digit_char c d Ed) as (_ & Hu & _).
  rewrite Hu, (scan_digits_digits_only _ 0 0%nat Hd).
  cbn [Nat.add]. rewrite Hlim. reflexivity.
Qed.

Lemma int_leading_space (max_str_digits : nat) (c : ascii) (s : string) :
  is_space c = true ->
  int max_str_digits (String c s) = int max_str_digits s.
Proof. intros Hc. unfold int. simpl skip_space. now rewrite Hc. Qed.

Lemma digit_value_range (c : ascii) (d : Z) :
  digit_value c = Some d -> 0 <= d <= 9.
Proof.
  unfold digit_value.
  destruct (48 <=? code c)%N eqn:Hlo; [|discriminate].
  destruct (code c <=? 57)%N eqn:Hhi; [|discriminate].
  simpl. intros [= <-].
  apply N.leb_le in Hlo, Hhi. lia.
Qed.

Lemma digits_value_nonneg (s : string) :
  forall acc, 0 <= acc -> 0 <= digits_value acc s.
Proof.
  induction s as [|c r IH]; intros acc Hacc; simpl; [exact Hacc|].
  destruct (digit_value c) as [d|] eqn:Ed; [|exact Hacc].
  apply IH. pose proof (digit_value_range c d Ed). lia.
Qed.

Lemma over_digit_limit_mono (max_str_digits n m : nat) :
  (n <= m)%nat ->
  over_digit_limit max_str_digits m = false ->
  over_digit_limit max_str_digits n = false.
Proof.
  unfold over_digit_limit. intros Hnm.
  rewrite !andb_false_iff, !Nat.ltb_ge. intros [H|H]; [left|right]; lia.
Qed.

(** X1.  A string identifier that contains a character other than a
    decimal digit, an underscore, a sign or white space, or that
    contains no decimal digit at all, is never converted: the update and
    delete handlers hand it to the store as the string it is. *)
Theorem foreign_identifier_is_kept
    (max_str_digits : nat) (s : string) :
  all_chars literal_char s = false \/ any_char is_digit s = false ->
  convert2int max_str_digits s = false
  /\ store_id max_str_digits (IdStr s) = IdStr s
  /\ coerce_item_id max_str_digits (IdStr s) = Return (IdStr s).
Proof.
  intros Hforeign.
  assert (Hint : int max_str_digits s = None).
  { destruct (int max_str_digits s) as [n|] eqn:E; [|reflexivity].
    destruct (int_literal _ _ _ E) as [H1 H2].
    destruct Hforeign; congruence. }
  unfold convert2int, coerce_item_id, convert2int, store_id.
  now rewrite Hint.
Qed.


(** X3.  Spellings of one number reach the store as one integer: for a
    non-empty digit string within the digit limit, the string itself,
    the string with a leading zero, with a plus sign or with a leading
    blank are all converted to its decimal value, which is not
    negative; with a minus sign the string is converted to the
    opposite. *)
Theorem number_spellings_collapse
    (max_str_digits : nat) (s : string) :
  s <> EmptyString ->
  digits_only s = true ->
  over_digit_limit max_str_digits (Datatypes.S (String.length s)) = false ->
  let v := digits_value 0 s in
  0 <= v
  /\ store_id max_str_digits (IdStr s) = IdInt v
  /\ store_id max_str_digits (IdStr ("0" +:+ s)) = IdInt v
  /\ store_id max_str_digits (IdStr ("+" +:+ s)) = IdInt v
  /\ store_id max_str_digits (IdStr (" " +:+ s)) = IdInt v
  /\ store_id max_str_digits (IdStr ("-" +:+ s)) = IdInt (- v).
Proof.
  intros Hne Hd Hlim. cbv zeta.
  assert (Hlim' : over_digit_limit max_str_digits (String.length s) = false)
    by (eapply over_digit_limit_mono; [|exact Hlim]; lia).
  pose proof (int_digits_only max_str_digits s Hne Hd Hlim') as Hs.
  pose proof (int_tail_digits max_str_digits 1 s Hne Hd Hlim') as Hplus.
  pose proof (int_tail_digits max_str_digits (-1) s Hne Hd Hlim') as Hminus.
  assert (Hzero : int max_str_digits ("0" +:+ s) = Some (digits_value 0 s)).
  { rewrite (int_digits_only max_str_digits ("0" +:+ s)); [reflexivity| | |].
    - discriminate.
    - exact Hd.
    - exact Hlim. }
  assert (Hblank : int max_str_digits (" " +:+ s) = Some (digits_value 0 s)).
  { change (" " +:+ s) with (String " " s).
    rewrite int_leading_space by reflexivity. exact Hs. }
  assert (Hp : int max_str_digits ("+" +:+ s) = Some (digits_value 0 s)).
  { rewrite <- (Z.mul_1_l (digits_value 0 s)). exact Hplus. }
  assert (Hm : int max_str_digits ("-" +:+ s) = Some (- digits_value 0 s)).
  { replace (- digits_value 0 s) with (-1 * digits_value 0 s) by lia.
    exact Hminus. }
  unfold store_id. rewrite Hs, Hzero, Hp, Hblank, Hm.
  repeat split. now apply digits_value_nonneg.
Qed.

(** ** More on the handlers *)

Section MoreHandlerProperties.
Context {S Entity Table FS : Type}.
Variable max_str_digits : nat.
Variable datasource : DataSource S Entity Table.
Variable serialize : Entity -> Outcome PyVal.
Variable field_structure : Table -> FS.
Variable factory : EntityFactory FS Entity.
Variable datatype : string.
Variable table : Table.

(** X4.  The update and delete handlers treat a string identifier that
    [int] parses exactly as they treat the parsed integer: same store
    call, same answer, same store afterwards. *)
Theorem string_and_integer_identifier_agree
    (s : string) (n : Z) (item : PyVal) (st : S) :
  int max_str_digits s = Some n ->
  delete_item max_str_digits datasource datatype (IdStr s) st
  = delete_item max_str_digits datasource datatype (IdInt n) st
  /\ update_item max_str_digits datasource serialize field_structure factory
       datatype table (IdStr s) item st
     = update_item max_str_digits datasource serialize field_structure factory
         datatype table (IdInt n) item st.
Proof.
  intros Hint. rewrite !delete_item_run, !update_item_run.
  unfold store_id. now rewrite Hint.
Qed.

Lemma entity_reply_success (key : string)
    (reply : Outcome (option Entity) * S) (body : PyVal) (st' : S) :
  entity_reply serialize key reply = (Return body, st') ->
  body_get "success" body = Some (PBool true) ->
  exists entity serialized,
    reply = (Return (Some entity), st')
    /\ serialize entity = Return serialized
    /\ body = PDict [("success", PBool true); (key, serialized)].
Proof.
  destruct reply as [[[entity|]|e] st1]; simpl.
  - destruct (serialize entity) as [serialized|e] eqn:Hser.
    + intros [= <- <-] _. eauto.
    + intros [= <- <-]. discriminate.
  - intros [= <- <-]. discriminate.
  - intros [= <- <-]. discriminate.
Qed.

(** X5.  An answer with [success: true] is never given on a guess.  The
    create and update handlers give it only when the factory built the
    record, the store returned an entity and that entity serialized; the
    delete handler only when the store's delete returned a truthy
    result.  The answer then carries that entity, or the identifier that
    was handed to the store. *)
Theorem success_means_the_store_did_it
    (item_id : Identifier) (item : PyVal) (st st' : S) (body : PyVal) :
  body_get "success" body = Some (PBool true) ->
  (create_item datasource serialize field_structure factory datatype table
     item st = (Return body, st') ->
   exists record entity serialized,
     create_entity factory (field_structure table) item = Return record
     /\ insert datasource datatype record st = (Return (Some entity), st')
     /\ serialize entity = Return serialized
     /\ body = PDict [("success", PBool true); ("created_entity", serialized)])
  /\ (update_item max_str_digits datasource serialize field_structure factory
        datatype table item_id item st = (Return body, st') ->
      exists record entity serialized,
        create_entity factory (field_structure table) item = Return record
        /\ update datasource datatype (store_id max_str_digits item_id)
             record st = (Return (Some entity), st')
        /\ serialize entity = Return serialized
        /\ body = PDict [("success", PBool true);
                         ("updated_entity", serialized)])
  /\ (delete_item max_str_digits datasource datatype item_id st
      = (Return body, st') ->
      exists result,
        delete datasource datatype (store_id max_str_digits item_id) st
        = (Return result, st')
        /\ truthy result = true
        /\ body = PDict [("success", PBool true);
                         ("deleted_id",
                          id_value (store_id max_str_digits item_id))]).
Proof.
  intros Hsuccess. split; [|split].
  - rewrite create_item_run.
    destruct (create_entity factory (field_structure table) item)
      as [record|e].
    + intros Hrun.
      destruct (entity_reply_success _ _ _ _ Hrun Hsuccess)
        as (entity & serialized & H1 & H2 & H3).
      eauto 10.
    + intros [= <- <-]. discriminate.
  - rewrite update_item_run.
    destruct (create_entity factory (field_structure table) item)
      as [record|e].
    + intros Hrun.
      destruct (entity_reply_success _ _ _ _ Hrun Hsuccess)
        as (entity & serialized & H1 & H2 & H3).
      eauto 10.
    + intros [= <- <-]. discriminate.
  - rewrite delete_item_run. unfold delete_reply.
    destruct (delete datasource datatype _ st) as [[result|e] st1].
    + destruct (truthy result) eqn:Ht.
      * intros [= <- <-]. eauto.
      * intros [= <- <-]. discriminate.
    + intros [= <- <-]. discriminate.
Qed.

Lemma format_entities_spec (entities : list Entity) (bodies : list PyVal) :
  format_entities serialize entities = Return bodies
  <-> Forall2 (fun entity body => serialize entity = Return body)
        entities bodies.
Proof.
  split.
  - revert bodies.
    induction entities as [|entity rest IH]; intros bodies; simpl.
    + intros [= <-]. constructor.
    + destruct (serialize entity) as [v|e] eqn:Hs; [|discriminate].
      destruct (format_entities serialize rest) as [vs|e]; [|discriminate].
      intros [= <-]. constructor; auto.
  - induction 1 as [|entity body rest bodies Hs _ IH]; simpl.
    + reflexivity.
    + now rewrite Hs, IH.
Qed.

(** X6.  Whatever the list handler returns is a list with one
    serialized record for each record the store returned, in the store's
    order: it never drops, adds or reorders records. *)
Theorem read_items_answer_matches_store
    (st st' : S) (answer : PyVal) :
  read_items datasource serialize datatype st = (Return answer, st') ->
  exists found bodies,
    get_all datasource datatype st = (Return found, st')
    /\ answer = PList bodies
    /\ Forall2 (fun entity body => serialize entity = Return body)
         (or_empty found) bodies
    /\ length bodies = length (or_empty found).
Proof.
  unfold read_items, bind, lift, ret.
  destruct (get_all datasource datatype st) as [[found|e] st1];
    [|discriminate].
  destruct (format_entities serialize (or_empty found)) as [bodies|e] eqn:Hf;
    [|discriminate].
  intros [= <- <-].
  apply format_entities_spec in Hf.
  exists found, bodies. repeat split; auto.
  symmetry. eapply Forall2_length; eauto.
Qed.

End MoreHandlerProperties.

(** ** More on route groups *)

Lemma append_inj_l (s a b : string) : s +:+ a = s +:+ b -> a = b.
Proof.
  induction s as [|c r IH]; [exact id|].
  change (String c (r +:+ a) = String c (r +:+ b) -> a = b).
  intros [= H]. now apply IH.
Qed.

Section MoreRouteGroupProperties.
Context {S Entity Table : Type}.
Variable datasource : DataSource S Entity Table.

Lemma init_fields
    (st : S) (given : string) (prefixed tagged : bool)
    (filters : list FieldBase) (r : CRUDApiRouter) :
  CRUDApiRouter_init datasource st given prefixed tagged filters = Return r ->
  name r = given /\ is_included r = false
  /\ use_prefix r = prefixed
  /\ use_name_as_tag r = tagged
  /\ is_Some (get_table datasource (lower given) st).
Proof.
  unfold CRUDApiRouter_init.
  destruct (get_table datasource (lower given) st) as [t|]; [|discriminate].
  intros [= <-]. simpl. eauto.
Qed.

(** Verbs and paths of a route group, in the order of registration. *)
Lemma init_verb_paths
    (st : S) (name : string) (use_prefix use_name_as_tag : bool)
    (filters : list FieldBase) (r : CRUDApiRouter) :
  CRUDApiRouter_init datasource st name use_prefix use_name_as_tag filters
  = Return r ->
  let plural := if use_prefix then "" else "s" in
  map verb_path (routes (get_base r))
  = (GET, String "/" (lower name +:+ plural))
    :: match filters with
       | [] => []
       | _ :: _ => [(GET, String "/" (lower name +:+ plural +:+ "/filter"))]
       end
    ++ [(GET, String "/" (lower name +:+ "/single/{id}"));
        (POST, String "/" (lower name +:+ ""));
        (PUT, String "/" (lower name +:+ "/single/{id}"));
        (DELETE, String "/" (lower name +:+ "/single/{id}"));
        (DELETE, String "/" (lower name +:+ plural))].
Proof.
  unfold CRUDApiRouter_init.
  destruct (get_table datasource (lower name) st) as [t|]; [|discriminate].
  intros [= <-].
  destruct use_prefix, filters as [|f fs]; reflexivity.
Qed.

(** X8.  No two routes of a route group have the same verb and the same
    path, with or without prefixing and with or without filter fields:
    each request is matched by at most one handler of its group. *)
Theorem routes_do_not_collide
    (st : S) (name : string) (use_prefix use_name_as_tag : bool)
    (filters : list FieldBase) (r : CRUDApiRouter) :
  CRUDApiRouter_init datasource st name use_prefix use_name_as_tag filters
  = Return r ->
  List.NoDup (map verb_path (routes (get_base r))).
Proof.
  intros Hinit. rewrite (init_verb_paths _ _ _ _ _ _ Hinit). cbv zeta.
  destruct use_prefix, filters as [|f fs]; cbn [app];
    repeat (constructor;
            [cbn [In]; intros Hin;
             repeat (destruct Hin as [Heq|Hin];
                     [try discriminate Heq;
                      injection Heq as Heq; apply append_inj_l in Heq;
                      discriminate Heq|]);
             exact Hin|]);
    constructor.
Qed.

(** X9.  Every route of a route group lies under [/resource] for the
    lowercased resource name, and carries the tags of the group: the
    name as given, in its original case, or none.  There are six routes,
    seven with filter fields. *)
Theorem routes_lie_under_the_resource
    (st : S) (name : string) (use_prefix use_name_as_tag : bool)
    (filters : list FieldBase) (r : CRUDApiRouter) :
  CRUDApiRouter_init datasource st name use_prefix use_name_as_tag filters
  = Return r ->
  Forall
    (fun rt =>
       (exists rest, route_path rt = "/" +:+ lower name +:+ rest)
       /\ route_tags rt = (if use_name_as_tag then [name] else []))
    (routes (get_base r))
  /\ length (routes (get_base r))
     = match filters with [] => 6%nat | _ :: _ => 7%nat end.
Proof.
  unfold CRUDApiRouter_init.
  destruct (get_table datasource (lower name) st) as [t|]; [|discriminate].
  intros [= <-].
  destruct use_prefix, filters as [|f fs];
    (split; [|reflexivity]);
    repeat (constructor; [split; [eexists; reflexivity|reflexivity]|]);
    constructor.
Qed.

Lemma names_differing_in_case_share_routes_aux
    (st : S) (name1 name2 : string) (use_prefix tag1 tag2 : bool)
    (filters : list FieldBase) (r1 : CRUDApiRouter) :
  lower name1 = lower name2 ->
  CRUDApiRouter_init datasource st name1 use_prefix tag1 filters = Return r1 ->
  exists r2,
    CRUDApiRouter_init datasource st name2 use_prefix tag2 filters = Return r2
    /\ map route_shape (routes (get_base r2))
       = map route_shape (routes (get_base r1)).
Proof.
  intros Hlower. unfold CRUDApiRouter_init. rewrite <- Hlower.
  destruct (get_table datasource (lower name1) st) as [t|]; [|discriminate].
  intros [= <-]. eexists. split; [reflexivity|].
  destruct filters as [|f fs]; reflexivity.
Qed.

(** X10.  The table and the paths depend on the resource name through
    its lowercase form only: two names that differ in case only get
    route groups with the same prefix and the same verbs, paths and
    handlers, and the one is built exactly when the other is. *)
Theorem names_differing_in_case_share_routes
    (st : S) (name1 name2 : string) (use_prefix tag1 tag2 : bool)
    (filters : list FieldBase) (r1 : CRUDApiRouter) :
  lower name1 = lower name2 ->
  CRUDApiRouter_init datasource st name1 use_prefix tag1 filters = Return r1 ->
  exists r2,
    CRUDApiRouter_init datasource st name2 use_prefix tag2 filters = Return r2
    /\ prefix (get_base r2) = prefix (get_base r1)
    /\ map route_shape (routes (get_base r2))
       = map route_shape (routes (get_base r1)).
Proof.
  intros Hlower. unfold CRUDApiRouter_init. rewrite <- Hlower.
  destruct (get_table datasource (lower name1) st) as [t|]; [|discriminate].
  intros [= <-]. eexists. split; [reflexivity|].
  destruct filters as [|f fs]; split; reflexivity.
Qed.
End MoreRouteGroupProperties.

(** ** More on the registry *)

Lemma dict_get_In {V} (k : string) (v : V) (d : Dict V) :
  dict_get k d = Some v -> In (k, v) d.
Proof.
  induction d as [|[k0 v0] d IH]; simpl; [discriminate|].
  destruct (String.eqb_spec k k0) as [->|Hne].
  - intros [= ->]. now left.
  - intros H. right. now apply IH.
Qed.

Lemma Forall_dict_set {V} (P : string * V -> Prop) (k : string) (v : V)
    (d : Dict V) :
  Forall P d -> P (k, v) -> Forall P (dict_set k v d).
Proof.
  intros Hd Hkv. induction Hd as [|[k0 v0] d H0 Hd IH]; simpl.
  - repeat constructor. exact Hkv.
  - destruct (String.eqb k k0); constructor; auto.
Qed.

Lemma dict_set_keys {V} (k k' : string) (v : V) (d : Dict V) :
  In k' (map fst (dict_set k v d)) -> k' = k \/ In k' (map fst d).
Proof.
  induction d as [|[k0 v0] d IH]; simpl.
  - intros [<-|[]]. now left.
  - destruct (String.eqb_spec k k0) as [->|Hne]; simpl.
    + intros [<-|H]; auto.
    + intros [<-|H]; auto. destruct (IH H); auto.
Qed.

Lemma dict_set_NoDup {V} (k : string) (v : V) (d : Dict V) :
  List.NoDup (map fst d) -> List.NoDup (map fst (dict_set k v d)).
Proof.
  induction d as [|[k0 v0] d IH]; simpl.
  - intros _. repeat constructor. intros [].
  - intros Hnd. inversion Hnd as [|? ? Hnotin Hnd']; subst.
    destruct (String.eqb_spec k k0) as [->|Hne]; simpl.
    + now constructor.
    + constructor; [|now apply IH].
      intros Hin. destruct (dict_set_keys _ _ _ _ Hin); congruence.
Qed.

Lemma well_formed_same (api api' : CRUDApi) :
  objects api' = objects api -> routers api' = routers api ->
  well_formed api -> well_formed api'.
Proof. unfold well_formed. now intros -> ->. Qed.

Lemma flags_kept_included (api api' : CRUDApi) (r : nat) :
  flags_kept api api' ->
  router_is_included api r = true -> router_is_included api' r = true.
Proof.
  unfold router_is_included. intros Hf.
  destruct (objects api !! r) as [router|] eqn:E; [|discriminate].
  intros Hr. destruct (Hf r router E) as (router' & -> & Hflag). auto.
Qed.

Lemma publish_loop_app (rs : list nat) :
  forall api,
    app (fold_left
           (fun api r =>
              if negb (router_is_included api r) then app_include_router api r
              else api) rs api)
    = app api
      ++ omap
           (fun r => match objects api !! r with
                     | Some router =>
                         if is_included router then None
                         else Some (get_base router)
                     | None => None
                     end) rs.
Proof.
  induction rs as [|r rs IH]; intros api; simpl.
  - now rewrite app_nil_r.
  - rewrite IH. clear IH.
    unfold router_is_included, app_include_router.
    destruct (objects api !! r) as [router|] eqn:E; simpl.
    + destruct (is_included router); simpl.
      * reflexivity.
      * now rewrite <- app_assoc.
    + reflexivity.
Qed.

Lemma pending_bases_length (api : CRUDApi) :
  length (pending_bases api) = pending api.
Proof.
  unfold pending_bases, pending, unattached.
  induction (dict_values (routers api)) as [|r rs IH]; [reflexivity|].
  cbn. destruct (objects api !! r) as [router|]; cbn; [|exact IH].
  destruct (is_included router); cbn; [exact IH|].
  f_equal. exact IH.
Qed.

Lemma all_included_pending (api : CRUDApi) :
  all_included api -> pending api = 0%nat.
Proof.
  unfold all_included, pending, dict_values.
  induction 1 as [|[k r] d Hr _ IH]; simpl; [reflexivity|].
  unfold unattached at 1. unfold router_is_included in Hr. simpl in Hr.
  destruct (objects api !! r) as [router|]; [|exact IH].
  rewrite Hr. exact IH.
Qed.

Lemma publish_effect (api : CRUDApi) :
  app (publish api) = app api ++ pending_bases api
  /\ objects (publish api) = objects api
  /\ routers (publish api) = routers api
  /\ (pending api = 0%nat -> publish api = api).
Proof.
  destruct (publish_same api) as (Ho & Hr & _).
  assert (Happ : app (publish api) = app api ++ pending_bases api)
    by apply publish_loop_app.
  repeat split; auto.
  intros Hzero.
  pose proof (pending_bases_length api) as Hlen. rewrite Hzero in Hlen.
  destruct (pending_bases api); [|discriminate].
  rewrite app_nil_r in Happ.
  destruct (publish api), api. simpl in *. congruence.
Qed.


(** X11.  [publish] hands to the application exactly the routers of the
    registered route groups that are not marked included, in the order
    of the registry, and touches neither the route groups nor the
    registry; when no such route group is left it changes nothing at
    all. *)
Theorem publish_attaches_the_pending (api : CRUDApi) :
  app (publish api) = app api ++ pending_bases api
  /\ objects (publish api) = objects api
  /\ routers (publish api) = routers api
  /\ (pending api = 0%nat -> publish api = api).
Proof. apply publish_effect. Qed.

Section MoreRegistryProperties.
Context {S Entity Table : Type}.
Variable datasource : DataSource S Entity Table.
Variable st : S.

Lemma include_router_run (datatype : string) (prefixed : bool)
    (filters : list FieldBase) (api : CRUDApi) :
  include_router datasource st datatype prefixed filters api
  = match CRUDApiRouter_init datasource st datatype prefixed true filters with
    | Raise e => (Raise e, api)
    | Return router =>
        (Return (length (objects api)),
         {| objects := objects api ++ [include router];
            routers := dict_set datatype (length (objects api)) (routers api);
            app := app api ++ [get_base router] |})
    end.
Proof.
  unfold include_router, register_router.
  destruct (CRUDApiRouter_init datasource st datatype prefixed true filters)
    as [router|e]; [|reflexivity].
  unfold router_include, app_include_router. simpl.
  rewrite list_lookup_middle by reflexivity. simpl.
  replace (length (objects api)) with (length (objects api) + 0)%nat at 2
    by lia.
  now rewrite alter_app_r.
Qed.

Lemma step_well_formed (api : CRUDApi) (op : Op) :
  well_formed api -> well_formed (step datasource st api op).
Proof.
  intros [Hent Hkeys].
  assert (Hold : forall router' : list CRUDApiRouter,
             Forall
               (fun kv => exists router,
                    (objects api ++ router') !! snd kv = Some router
                    /\ name router = fst kv) (routers api)).
  { intros router'. eapply Forall_impl; [exact Hent|].
    intros [k r] (router & Hr & Hn). exists router. split; [|exact Hn].
    now apply lookup_app_l_Some. }
  destruct op as [d up fs|d up fs|].
  - simpl. unfold register_router.
    destruct (CRUDApiRouter_init datasource st d up true fs) as [router|e]
      eqn:Hinit; simpl; [|now split].
    destruct (init_fields _ _ _ _ _ _ _ Hinit) as (Hname & _).
    split; simpl; [|now apply dict_set_NoDup].
    apply Forall_dict_set; [apply Hold|].
    exists router. split; [now apply list_lookup_middle|exact Hname].
  - simpl. rewrite include_router_run.
    destruct (CRUDApiRouter_init datasource st d up true fs) as [router|e]
      eqn:Hinit; simpl; [|now split].
    destruct (init_fields _ _ _ _ _ _ _ Hinit) as (Hname & _).
    split; simpl; [|now apply dict_set_NoDup].
    apply Forall_dict_set; [apply Hold|].
    exists (include router).
    split; [now apply list_lookup_middle|exact Hname].
  - simpl. destruct (publish_same api) as (Ho & Hr & _).
    now apply (well_formed_same api).
Qed.

(** X12.  The registry stays consistent along every sequence of
    [register_router], [include_router] and [publish] calls: each
    registered name points to a route group that exists and that was
    built for exactly that name, and no name is registered twice. *)
Theorem registry_stays_well_formed (ops : list Op) (api : CRUDApi) :
  well_formed api ->
  let api' := run datasource st ops api in
  well_formed api'
  /\ (forall datatype r,
        dict_get datatype (routers api') = Some r ->
        exists router,
          get_router api' datatype = Some router
          /\ name router = datatype).
Proof.
  intros Hwf. cbv zeta.
  assert (Hrun : well_formed (run datasource st ops api)).
  { unfold run. revert api Hwf.
    induction ops as [|op ops IH]; intros api Hwf; simpl; [exact Hwf|].
    apply IH. now apply step_well_formed. }
  split; [exact Hrun|].
  intros datatype r Hget. destruct Hrun as [Hent _].
  apply dict_get_In in Hget as Hin.
  rewrite List.Forall_forall in Hent.
  destruct (Hent _ Hin) as (router & Hr & Hn). simpl in *.
  exists router. unfold get_router. now rewrite Hget.
Qed.
End MoreRegistryProperties.

Section RegistryCalls.
Context {S Entity Table : Type}.
Variable datasource : DataSource S Entity Table.
Variable st : S.

Lemma get_router_other (api : CRUDApi) (datatype k : string)
    (added : list CRUDApiRouter) (ap : list APIRouter) :
  well_formed api ->
  k <> datatype ->
  get_router
    {| objects := objects api ++ added;
       routers := dict_set datatype (length (objects api)) (routers api);
       app := ap |} k
  = get_router api k.
Proof.
  intros [Hent _] Hne. unfold get_router. simpl.
  rewrite dict_get_set.
  destruct (String.eqb_spec k datatype) as [->|_]; [congruence|].
  destruct (dict_get k (routers api)) as [r|] eqn:Hget; [|reflexivity].
  apply dict_get_In in Hget. rewrite List.Forall_forall in Hent.
  destruct (Hent _ Hget) as (router & Hr & _). simpl in Hr.
  rewrite Hr. now apply lookup_app_l_Some.
Qed.

(** X13.  After a [register_router] that succeeds, looking the name up
    gives the route group just built: named as given, not marked
    included and not handed to the application; the other names of a
    consistent registry are looked up as before. *)
Theorem register_then_lookup
    (datatype : string) (prefixed : bool) (filters : list FieldBase)
    (api : CRUDApi) (router : CRUDApiRouter) :
  CRUDApiRouter_init datasource st datatype prefixed true filters
  = Return router ->
  let result := register_router datasource st datatype prefixed filters api in
  fst result = Return (length (objects api))
  /\ get_router (snd result) datatype = Some router
  /\ name router = datatype
  /\ group_state (snd result) datatype = Registered
  /\ app (snd result) = app api
  /\ (well_formed api ->
      forall k, k <> datatype ->
                get_router (snd result) k = get_router api k).
Proof.
  intros Hinit. cbv zeta. unfold register_router. rewrite Hinit. simpl.
  destruct (init_fields _ _ _ _ _ _ _ Hinit) as (Hname & Hflag & _).
  assert (Hget : get_router
                   {| objects := objects api ++ [router];
                      routers := dict_set datatype (length (objects api))
                                   (routers api);
                      app := app api |} datatype = Some router).
  { unfold get_router. simpl. rewrite dict_get_set, String.eqb_refl.
    now apply list_lookup_middle. }
  repeat split; auto.
  - unfold group_state. now rewrite Hget, Hflag.
  - intros Hwf k Hne. now apply get_router_other.
Qed.

(** X14.  After an [include_router] that succeeds, the name is attached:
    its route group is in the registry marked included, its router is
    the last one handed to the application, the attach count has grown
    by one, and a later [publish] finds this route group not pending.
    The other names of a consistent registry are looked up as before. *)
Theorem include_router_attaches_once
    (datatype : string) (prefixed : bool) (filters : list FieldBase)
    (api : CRUDApi) (router : CRUDApiRouter) :
  CRUDApiRouter_init datasource st datatype prefixed true filters
  = Return router ->
  let result := include_router datasource st datatype prefixed filters api in
  fst result = Return (length (objects api))
  /\ get_router (snd result) datatype = Some (include router)
  /\ group_state (snd result) datatype = Attached
  /\ app (snd result) = app api ++ [get_base router]
  /\ attach_count (snd result) = Datatypes.S (attach_count api)
  /\ unattached (snd result) (length (objects api)) = false
  /\ (well_formed api ->
      forall k, k <> datatype ->
                get_router (snd result) k = get_router api k).
Proof.
  intros Hinit. cbv zeta. rewrite include_router_run, Hinit. simpl.
  assert (Hlook : (objects api ++ [include router]) !! length (objects api)
                  = Some (include router))
    by now apply list_lookup_middle.
  assert (Hget : get_router
                   {| objects := objects api ++ [include router];
                      routers := dict_set datatype (length (objects api))
                                   (routers api);
                      app := app api ++ [get_base router] |} datatype
                 = Some (include router)).
  { unfold get_router. simpl. now rewrite dict_get_set, String.eqb_refl. }
  repeat split; auto.
  - unfold group_state. now rewrite Hget.
  - unfold attach_count. simpl. rewrite length_app. simpl. lia.
  - unfold unattached. simpl. now rewrite Hlook.
  - intros Hwf k Hne. now apply get_router_other.
Qed.

Lemma step_all_included (api : CRUDApi) (op : Op) :
  is_register op = false ->
  all_included api -> all_included (step datasource st api op).
Proof.
  unfold all_included. intros Hop Hall.
  destruct op as [d up fs|d up fs|]; [discriminate| |].
  - simpl. rewrite include_router_run.
    destruct (CRUDApiRouter_init datasource st d up true fs) as [router|e];
      simpl; [|exact Hall].
    apply Forall_dict_set.
    + eapply Forall_impl; [exact Hall|].
      intros [k r]. unfold router_is_included. simpl.
      destruct (objects api !! r) as [x|] eqn:E; [|discriminate].
      intros Hx. now rewrite (lookup_app_l_Some _ _ _ _ E).
    + unfold router_is_included. simpl.
      now rewrite list_lookup_middle.
  - simpl. destruct (publish_same api) as (Ho & Hr & _).
    rewrite Hr. eapply Forall_impl; [exact Hall|].
    intros [k r]. unfold router_is_included. now rewrite Ho.
Qed.

(** X15.  A setup that only uses [include_router] and [publish] leaves
    no registered route group unmarked, so on such a registry [publish]
    changes nothing, however often it is called. *)
Theorem include_only_setup_needs_no_publish
    (ops : list Op) (api : CRUDApi) :
  forallb (fun op => negb (is_register op)) ops = true ->
  all_included api ->
  let api' := run datasource st ops api in
  all_included api'
  /\ pending api' = 0%nat
  /\ publish api' = api'
  /\ publish (publish api') = api'.
Proof.
  intros Hops Hall. cbv zeta.
  assert (Hrun : all_included (run datasource st ops api)).
  { unfold run. revert api Hall.
    induction ops as [|op ops IH]; intros api Hall; simpl; [exact Hall|].
    simpl in Hops. apply andb_true_iff in Hops as [Hop Hops].
    apply negb_true_iff in Hop.
    apply IH; [exact Hops|]. now apply step_all_included. }
  pose proof (all_included_pending _ Hrun) as Hzero.
  destruct (publish_effect (run datasource st ops api))
    as (_ & _ & _ & Hid).
  repeat split; auto.
  now rewrite !Hid.
Qed.

(** X16.  The application never loses a router: along every sequence of
    registry calls the list of routers handed to it only grows at the
    end, and [register_router] alone never touches it. *)
Theorem application_only_grows (ops : list Op) (api : CRUDApi) :
  (exists added, app (run datasource st ops api) = app api ++ added)
  /\ (attach_count api <= attach_count (run datasource st ops api))%nat
  /\ (forallb is_register ops = true ->
      app (run datasource st ops api) = app api).
Proof.
  assert (Hstep : forall api op,
             exists added,
               app (step datasource st api op) = app api ++ added
               /\ (is_register op = true -> added = [])).
  { intros a op. destruct op as [d up fs|d up fs|]; simpl.
    - exists []. unfold register_router.
      destruct (CRUDApiRouter_init datasource st d up true fs); simpl;
        now rewrite app_nil_r.
    - rewrite include_router_run.
      destruct (CRUDApiRouter_init datasource st d up true fs) as [router|e];
        simpl.
      + exists [get_base router]. split; [reflexivity|discriminate].
      + exists []. split; [now rewrite app_nil_r|discriminate].
    - exists (pending_bases a). split; [|discriminate].
      apply publish_effect. }
  assert (Hrun : forall ops api,
             exists added,
               app (run datasource st ops api) = app api ++ added
               /\ (forallb is_register ops = true -> added = [])).
  { clear api ops. unfold run.
    induction ops as [|op ops IH]; intros api; simpl.
    - exists []. split; [now rewrite app_nil_r|reflexivity].
    - destruct (Hstep api op) as (a1 & H1 & Hreg1).
      destruct (IH (step datasource st api op)) as (a2 & H2 & Hreg2).
      exists (a1 ++ a2). split.
      + now rewrite H2, H1, app_assoc.
      + intros [Hop Hops]%andb_true_iff.
        now rewrite (Hreg1 Hop), (Hreg2 Hops). }
  destruct (Hrun ops api) as (added & Happ & Hreg).
  split; [eauto|]. split.
  - unfold attach_count. rewrite Happ, length_app. lia.
  - intros Hall. rewrite Happ, (Hreg Hall). apply app_nil_r.
Qed.

(** X17.  The registry is keyed by the name as given while the table is
    found by the lowercased name: two different names with the same
    lowercase form are registered side by side, each with its own route
    group, and the two route groups serve the same verbs and paths. *)
Theorem case_variants_register_side_by_side
    (name1 name2 : string) (prefixed : bool) (filters : list FieldBase)
    (api : CRUDApi) (router1 : CRUDApiRouter) :
  name1 <> name2 ->
  lower name1 = lower name2 ->
  CRUDApiRouter_init datasource st name1 prefixed true filters
  = Return router1 ->
  let api1 := snd (register_router datasource st name1 prefixed filters api) in
  let api2 := snd (register_router datasource st name2 prefixed filters api1) in
  exists router2,
    get_router api2 name1 = Some router1
    /\ get_router api2 name2 = Some router2
    /\ name router2 = name2
    /\ map route_shape (routes (get_base router2))
       = map route_shape (routes (get_base router1)).
Proof.
  intros Hne Hlower Hinit1. cbv zeta.
  destruct (names_differing_in_case_share_routes_aux datasource st name1 name2
              prefixed true true filters router1 Hlower Hinit1) as (router2 & Hinit2 & Hshape).
  exists router2.
  destruct (init_fields _ _ _ _ _ _ _ Hinit2) as (Hname2 & _).
  unfold register_router at 2. rewrite Hinit1. simpl.
  unfold register_router. rewrite Hinit2. simpl.
  unfold get_router. simpl.
  rewrite !dict_get_set, String.eqb_refl.
  destruct (String.eqb_spec name1 name2) as [?|_]; [congruence|].
  rewrite String.eqb_refl.
  repeat split; auto.
  - apply lookup_app_l_Some. now apply list_lookup_middle.
  - now apply list_lookup_middle.
Qed.
End RegistryCalls.

(** ** Concrete runs for the further properties *)

(** A UUID-like identifier contains letters and is kept as a string. *)
Lemma foreign_identifier_is_kept_witness :
  all_chars literal_char "550e8400-e29b" = false
  /\ store_id 4300 (IdStr "550e8400-e29b") = IdStr "550e8400-e29b".
Proof.
  split; [reflexivity|].
  apply (foreign_identifier_is_kept 4300 "550e8400-e29b").
  left. reflexivity.
Defined.


(** "42", "042", "+42" and " 42" all reach the store as 42, "-42" as -42. *)
Lemma number_spellings_collapse_witness :
  store_id 4300 (IdStr "042") = IdInt 42
  /\ store_id 4300 (IdStr "+42") = IdInt 42
  /\ store_id 4300 (IdStr " 42") = IdInt 42
  /\ store_id 4300 (IdStr "-42") = IdInt (-42).
Proof.
  destruct (number_spellings_collapse 4300 "42")
    as (_ & _ & Hzero & Hplus & Hblank & Hminus);
    [discriminate|reflexivity|reflexivity|].
  repeat split; assumption.
Defined.

(** Deleting "7" and deleting 7 on the event store are the same run. *)
Lemma string_and_integer_identifier_agree_witness :
  delete_item 4300 MemStore.datasource "event" (IdStr "7") MemStore.events
  = delete_item 4300 MemStore.datasource "event" (IdInt 7) MemStore.events.
Proof.
  apply (string_and_integer_identifier_agree 4300 MemStore.datasource
           MemStore.serialize MemStore.field_structure MemStore.factory
           "event" "event" "7" 7 open_payload MemStore.events).
  reflexivity.
Defined.

(** The successful delete of "7": the store's delete of 7 was truthy. *)
Lemma success_means_the_store_did_it_witness :
  exists result,
    delete MemStore.datasource "event" (IdInt 7) MemStore.events
    = (Return result,
       snd (delete_item 4300 MemStore.datasource "event" (IdStr "7")
              MemStore.events))
    /\ truthy result = true.
Proof.
  destruct (success_means_the_store_did_it 4300 MemStore.datasource
              MemStore.serialize MemStore.field_structure MemStore.factory
              "event" "event" (IdStr "7") open_payload MemStore.events
              (snd (delete_item 4300 MemStore.datasource "event" (IdStr "7")
                      MemStore.events))
              (PDict [("success", PBool true); ("deleted_id", PInt 7)])
              eq_refl)
    as (_ & _ & Hdel).
  destruct (Hdel eq_refl) as (result & Hcall & Htrue & _).
  exists result. split; assumption.
Defined.

(** The list answer on the event store has the store's two records. *)
Lemma read_items_answer_matches_store_witness :
  exists bodies,
    fst (read_items MemStore.datasource MemStore.serialize "event"
           MemStore.events) = Return (PList bodies)
    /\ length bodies = 2%nat.
Proof.
  destruct (read_items_answer_matches_store MemStore.datasource
              MemStore.serialize "event" MemStore.events
              (snd (read_items MemStore.datasource MemStore.serialize "event"
                      MemStore.events))
              (PList
                 [PDict [("id", PInt 7); ("status", PStr "open");
                         ("max_attendees", PInt 10)];
                  PDict [("id", PInt (-5)); ("status", PStr "closed");
                         ("max_attendees", PInt 3)]])
              eq_refl)
    as (found & bodies & Hall & Hans & _ & Hlen).
  exists bodies. split.
  - rewrite <- Hans. reflexivity.
  - rewrite Hlen.
    assert (Hf : Return found
                 = fst (get_all MemStore.datasource "event" MemStore.events))
      by now rewrite Hall.
    vm_compute in Hf. injection Hf as ->. reflexivity.
Defined.


(** The seven routes of "event" with filter fields do not collide. *)
Lemma routes_do_not_collide_witness :
  exists r,
    CRUDApiRouter_init MemStore.datasource MemStore.events "event" true true
      status_filters = Return r
    /\ List.NoDup (map verb_path (routes (get_base r))).
Proof.
  eexists. split; [reflexivity|].
  apply (routes_do_not_collide MemStore.datasource MemStore.events "event"
           true true status_filters).
  reflexivity.
Defined.

(** The routes of "Event" lie under /event and are tagged "Event". *)
Lemma routes_lie_under_the_resource_witness :
  exists r,
    CRUDApiRouter_init MemStore.datasource MemStore.events "Event" true true
      [] = Return r
    /\ length (routes (get_base r)) = 6%nat
    /\ Forall (fun rt => route_tags rt = ["Event"]) (routes (get_base r)).
Proof.
  eexists. split; [reflexivity|].
  destruct (routes_lie_under_the_resource MemStore.datasource MemStore.events
              "Event" true true [] _ eq_refl) as (Hall & Hlen).
  split; [exact Hlen|].
  eapply Forall_impl; [exact Hall|]. now intros rt (_ & Htags).
Defined.

(** "EVENT" and "event" get the same routes. *)
Lemma names_differing_in_case_share_routes_witness :
  exists r1 r2,
    CRUDApiRouter_init MemStore.datasource MemStore.events "event" true true
      [] = Return r1
    /\ CRUDApiRouter_init MemStore.datasource MemStore.events "EVENT" true
         false [] = Return r2
    /\ map route_shape (routes (get_base r2))
       = map route_shape (routes (get_base r1)).
Proof.
  eexists.
  destruct (names_differing_in_case_share_routes MemStore.datasource
              MemStore.events "event" "EVENT" true true false [] _
              eq_refl eq_refl) as (r2 & Hinit & _ & Hshape).
  exists r2. split; [reflexivity|]. split; assumption.
Defined.

(** After [include_router("event")] nothing is pending and [publish]
    changes nothing. *)
Lemma publish_attaches_the_pending_witness :
  let api :=
    snd (include_router MemStore.datasource MemStore.events "event" true []
           CRUDApi_init) in
  pending api = 0%nat /\ publish api = api.
Proof.
  cbv zeta. split; [reflexivity|].
  apply publish_attaches_the_pending. reflexivity.
Defined.

(** The registry after registering "event" twice and "Event" once. *)
Lemma registry_stays_well_formed_witness :
  let ops := [OpRegister "event" true []; OpInclude "event" true [];
              OpRegister "Event" false []; OpPublish] in
  well_formed (run MemStore.datasource MemStore.events ops CRUDApi_init)
  /\ exists router,
       get_router (run MemStore.datasource MemStore.events ops CRUDApi_init)
         "Event" = Some router
       /\ name router = "Event".
Proof.
  cbv zeta.
  destruct (registry_stays_well_formed MemStore.datasource MemStore.events
              [OpRegister "event" true []; OpInclude "event" true [];
               OpRegister "Event" false []; OpPublish] CRUDApi_init)
    as (Hwf & Hget).
  - split; constructor.
  - split; [exact Hwf|]. apply (Hget "Event" 2%nat). reflexivity.
Defined.

(** Registering "event" on the empty registry. *)
Lemma register_then_lookup_witness :
  let api :=
    snd (register_router MemStore.datasource MemStore.events "event" true []
           CRUDApi_init) in
  group_state api "event" = Registered /\ app api = [].
Proof.
  cbv zeta.
  destruct (register_then_lookup MemStore.datasource MemStore.events "event"
              true [] CRUDApi_init _ eq_refl)
    as (_ & _ & _ & Hstate & Happ & _).
  split; assumption.
Defined.

(** Including "event" on the empty registry. *)
Lemma include_router_attaches_once_witness :
  let api :=
    snd (include_router MemStore.datasource MemStore.events "event" true []
           CRUDApi_init) in
  group_state api "event" = Attached /\ attach_count api = 1%nat.
Proof.
  cbv zeta.
  destruct (include_router_attaches_once MemStore.datasource MemStore.events
              "event" true [] CRUDApi_init _ eq_refl)
    as (_ & _ & Hstate & _ & Hcount & _).
  split; assumption.
Defined.

(** Two [include_router] calls and a [publish]. *)
Lemma include_only_setup_needs_no_publish_witness :
  let api :=
    run MemStore.datasource MemStore.events
      [OpInclude "event" true []; OpInclude "Event" false []; OpPublish]
      CRUDApi_init in
  pending api = 0%nat /\ publish api = api.
Proof.
  cbv zeta.
  destruct (include_only_setup_needs_no_publish MemStore.datasource
              MemStore.events
              [OpInclude "event" true []; OpInclude "Event" false [];
               OpPublish] CRUDApi_init)
    as (_ & Hzero & Hid & _).
  - reflexivity.
  - constructor.
  - split; assumption.
Defined.

(** Two [register_router] calls leave the application empty. *)
Lemma application_only_grows_witness :
  app (run MemStore.datasource MemStore.events
         [OpRegister "event" true []; OpRegister "Event" true []]
         CRUDApi_init) = [].
Proof.
  destruct (application_only_grows MemStore.datasource MemStore.events
              [OpRegister "event" true []; OpRegister "Event" true []]
              CRUDApi_init) as (_ & _ & Hsame).
  apply Hsame. reflexivity.
Defined.

(** "event" and "Event" registered side by side. *)
Lemma case_variants_register_side_by_side_witness :
  let api :=
    run MemStore.datasource MemStore.events
      [OpRegister "event" true []; OpRegister "Event" true []] CRUDApi_init in
  exists router1 router2,
    get_router api "event" = Some router1
    /\ get_router api "Event" = Some router2
    /\ map route_shape (routes (get_base router2))
       = map route_shape (routes (get_base router1)).
Proof.
  cbv zeta.
  destruct (case_variants_register_side_by_side MemStore.datasource
              MemStore.events "event" "Event" true [] CRUDApi_init _
              ltac:(discriminate) eq_refl eq_refl)
    as (router2 & H1 & H2 & _ & Hshape).
  eexists. exists router2. split; [exact H1|]. split; assumption.
Defined.
